(** * A shallow embedding of the aqlinks voice agent

    Source: [src/aqlinks/agent/voice_agent.py].

    The agent is a Python object mutated by cooperative tasks.  Its
    attributes become the fields of the record [VoiceAgent]; every method is
    a function in the small state-and-trace monad [M], which threads the
    agent and collects the externally visible actions (observer callbacks,
    calls to the recognition, generation and synthesis collaborators, audio
    handed to the outbound track, tasks spawned).  An exception is a result
    [None]; where the source catches it, the model matches on it.

    Tasks.  A coroutine runs here as one step: what other tasks do at its
    suspension points is not modelled, with one exception, the session
    state that the frame loop finds when a frame arrives ([Arrival]).

    Numbers.  Python [float] and numpy floating arrays are modelled by exact
    rationals ([Q]), and the square root of the energy by the real square
    root; the rounding of IEEE arithmetic is outside the model.  [int16]
    samples and lengths are integers, the clock of the event loop is a
    rational number of seconds.

    Texts are strings over the code points 0..255.

    Connections.  The peer connection, the socket and the outbound track
    are the fields of [Session] beside the agent; the methods that connect,
    disconnect and handle signalling run in the monad [N], in which a method
    may also raise.  The network side is the record [Network], which says
    for each call whether it succeeds.  The outbound track is the record
    [AudioStreamTrack], its queue a list.

    Layout: the program (data, monad, numpy and Python primitives, methods,
    frame decoding, outbound track, connection and signalling), the
    vocabulary of the statements, then the proofs by component. *)

From Stdlib Require Import String Ascii.
From Stdlib Require Import ZArith QArith Qround Reals Qreals Lra.
From Stdlib Require Lqa.
From Stdlib Require Import List Bool Arith Lia.
Import ListNotations.

Local Open Scope nat_scope.

(* ================================================================== *)
(** * Data model                                                       *)
(* ================================================================== *)

(** [class AgentState(Enum)] *)
Inductive AgentState : Type :=
| DISCONNECTED
| CONNECTING
| CONNECTED
| PROCESSING
| SPEAKING.

Definition AgentState_eq_dec (s t : AgentState) : {s = t} + {s <> t}.
Proof. decide equality. Defined.

(** [self.state != state] is [negb (AgentState_eqb ...)]. *)
Definition AgentState_eqb (s t : AgentState) : bool :=
  if AgentState_eq_dec s t then true else false.

(** [@dataclass class AgentConfig].  [user_id] has a random default in the
    source, so it is an argument of [default_config]. *)
Record AgentConfig : Type := {
  sfu_url : string;
  room_name : string;
  user_id : string;
  stt_model : string;
  llm_model : string;
  llm_instructions : string;
  tts_voice : string;
  sample_rate : Z;
  channels : Z;
  vad_threshold : Q;
  silence_duration : Q
}.

Definition default_config (uid : string) : AgentConfig := {|
  sfu_url := "ws://localhost:8080/ws";
  room_name := "test";
  user_id := uid;
  stt_model := "base";
  llm_model := "gpt-4";
  llm_instructions :=
    "You are a helpful AI assistant in a voice conversation. Keep your responses concise and natural.";
  tts_voice := "alloy";
  sample_rate := 48000;
  channels := 1;
  vad_threshold := 1 # 100000000;
  silence_duration := 3 # 2
|}.

(** Entries of [conversation_history] and of the message list sent to the
    generation service: [{"role": ..., "content": ...}].  The content of an
    assistant entry is whatever the service returned, which may be Python's
    [None]. *)
Inductive Role : Type := system | user | assistant.

Record Message : Type := { role : Role; content : option string }.

(** Externally visible actions, in the order the code performs them. *)
Inductive Event : Type :=
| StateChanged (s : AgentState)                  (* on_state_change(state) *)
| TranscriptNotified (text : string)             (* on_transcript(transcript) *)
| ResponseNotified (text : string)               (* on_response(response_text) *)
| SttCall (audio_float : list Q)                 (* self.stt.transcribe(...) *)
| LlmCall (model : string) (messages : list Message)
                                                 (* llm.chat.completions.create *)
| TtsCall (voice : string) (input : string)      (* llm.audio.speech.create *)
| AudioSent (chunk : list Z)                     (* audio_track.send_audio *)
| PipelineSpawned.                               (* create_task(_process_speech()) *)

(** The attributes of [VoiceAgent] that the audio and conversation paths
    read or write.  The three observer attributes are [Optional[Callable]];
    the model records whether one is registered, and a call of the observer
    is an [Event]. *)
Record VoiceAgent : Type := {
  config : AgentConfig;
  state : AgentState;
  audio_buffer : list (list Z);
  speech_buffer : list (list Z);
  is_speaking : bool;
  last_speech_time : Q;
  conversation_history : list Message;
  on_state_change : bool;
  on_transcript : bool;
  on_response : bool
}.

(** [VoiceAgent.__init__] *)
Definition init (cfg : AgentConfig) : VoiceAgent := {|
  config := cfg;
  state := DISCONNECTED;
  audio_buffer := [];
  speech_buffer := [];
  is_speaking := false;
  last_speech_time := 0;
  conversation_history := [];
  on_state_change := false;
  on_transcript := false;
  on_response := false
|}.

(** Attribute assignment. *)
Definition with_state (s : AgentState) (a : VoiceAgent) : VoiceAgent :=
  {| config := config a; state := s; audio_buffer := audio_buffer a;
     speech_buffer := speech_buffer a; is_speaking := is_speaking a;
     last_speech_time := last_speech_time a;
     conversation_history := conversation_history a;
     on_state_change := on_state_change a; on_transcript := on_transcript a;
     on_response := on_response a |}.

Definition with_audio_buffer (b : list (list Z)) (a : VoiceAgent) : VoiceAgent :=
  {| config := config a; state := state a; audio_buffer := b;
     speech_buffer := speech_buffer a; is_speaking := is_speaking a;
     last_speech_time := last_speech_time a;
     conversation_history := conversation_history a;
     on_state_change := on_state_change a; on_transcript := on_transcript a;
     on_response := on_response a |}.

Definition with_speech_buffer (b : list (list Z)) (a : VoiceAgent) : VoiceAgent :=
  {| config := config a; state := state a; audio_buffer := audio_buffer a;
     speech_buffer := b; is_speaking := is_speaking a;
     last_speech_time := last_speech_time a;
     conversation_history := conversation_history a;
     on_state_change := on_state_change a; on_transcript := on_transcript a;
     on_response := on_response a |}.

Definition with_is_speaking (b : bool) (a : VoiceAgent) : VoiceAgent :=
  {| config := config a; state := state a; audio_buffer := audio_buffer a;
     speech_buffer := speech_buffer a; is_speaking := b;
     last_speech_time := last_speech_time a;
     conversation_history := conversation_history a;
     on_state_change := on_state_change a; on_transcript := on_transcript a;
     on_response := on_response a |}.

Definition with_last_speech_time (t : Q) (a : VoiceAgent) : VoiceAgent :=
  {| config := config a; state := state a; audio_buffer := audio_buffer a;
     speech_buffer := speech_buffer a; is_speaking := is_speaking a;
     last_speech_time := t;
     conversation_history := conversation_history a;
     on_state_change := on_state_change a; on_transcript := on_transcript a;
     on_response := on_response a |}.

Definition with_conversation_history (h : list Message) (a : VoiceAgent) : VoiceAgent :=
  {| config := config a; state := state a; audio_buffer := audio_buffer a;
     speech_buffer := speech_buffer a; is_speaking := is_speaking a;
     last_speech_time := last_speech_time a;
     conversation_history := h;
     on_state_change := on_state_change a; on_transcript := on_transcript a;
     on_response := on_response a |}.

(** The three assignments of [main]: every observer registered. *)
Definition with_observers (a : VoiceAgent) : VoiceAgent :=
  {| config := config a; state := state a; audio_buffer := audio_buffer a;
     speech_buffer := speech_buffer a; is_speaking := is_speaking a;
     last_speech_time := last_speech_time a;
     conversation_history := conversation_history a;
     on_state_change := true; on_transcript := true; on_response := true |}.

(* ================================================================== *)
(** * The state-and-trace monad                                        *)
(* ================================================================== *)

Definition M (A : Type) : Type := VoiceAgent -> A * VoiceAgent * list Event.

Definition ret {A} (x : A) : M A := fun a => (x, a, []).

Definition bind {A B} (m : M A) (k : A -> M B) : M B :=
  fun a =>
    let '(x, a1, e1) := m a in
    let '(y, a2, e2) := k x a1 in
    (y, a2, e1 ++ e2).

Definition get : M VoiceAgent := fun a => (a, a, []).
Definition modify (f : VoiceAgent -> VoiceAgent) : M unit := fun a => (tt, f a, []).
Definition emit (e : Event) : M unit := fun a => (tt, a, [e]).
Definition emit_all (es : list Event) : M unit := fun a => (tt, a, es).
Definition when (b : bool) (m : M unit) : M unit := if b then m else ret tt.

Declare Scope agent_scope.
Delimit Scope agent_scope with agent.
Notation "x <- m ;; k" := (bind m (fun x => k))
  (at level 61, m at next level, right associativity) : agent_scope.
Notation "m ;; k" := (bind m (fun _ => k))
  (at level 61, right associativity) : agent_scope.

(** The three components of a run. *)
Definition result {A} (r : A * VoiceAgent * list Event) : A := fst (fst r).
Definition agent_after {A} (r : A * VoiceAgent * list Event) : VoiceAgent := snd (fst r).
Definition trace {A} (r : A * VoiceAgent * list Event) : list Event := snd r.

(* ================================================================== *)
(** * Python and numpy primitives used by the agent                    *)
(* ================================================================== *)

(** [l[-n:]] *)
Definition last_n {A} (n : nat) (l : list A) : list A :=
  skipn (length l - n) l.

(** [str.isspace] on one character (code points below 256). *)
Definition py_isspace (c : ascii) : bool :=
  let n := nat_of_ascii c in
  ((9 <=? n) && (n <=? 13)) || ((28 <=? n) && (n <=? 32))
  || (n =? 133) || (n =? 160).

(** [str.strip()]: leading and trailing white space removed. *)
Fixpoint lstrip_chars (s : list ascii) : list ascii :=
  match s with
  | [] => []
  | c :: r => if py_isspace c then lstrip_chars r else s
  end.

Definition strip (s : string) : string :=
  string_of_list_ascii
    (rev (lstrip_chars (rev (lstrip_chars (list_ascii_of_string s))))).

(** Truth value of a string: [not s] holds for the empty string only. *)
Definition str_is_empty (s : string) : bool :=
  match s with EmptyString => true | _ => false end.

(** [" ".join(parts)] *)
Definition join_spaces (parts : list string) : string := String.concat " " parts.

(** [int(x)]: truncation toward zero. *)
Definition py_int (x : Q) : Z := Z.quot (Qnum x) (Zpos (Qden x)).

Module np.

(** [np.mean]: the mean of an empty array is [nan], here [None]. *)
Definition mean (l : list Q) : option Q :=
  match l with
  | [] => None
  | _ => Some (fold_right Qplus 0%Q l / inject_Z (Z.of_nat (length l)))%Q
  end.

(** [np.linspace(start, stop, num)]; a negative [num] raises. *)
Definition linspace (start stop : Q) (num : Z) : option (list Q) :=
  if (num <? 0)%Z then None
  else
    Some match Z.to_nat num with
         | 0 => []
         | 1 => [start]
         | S div =>
             map (fun i => (start + inject_Z (Z.of_nat i)
                                    * ((stop - start) / inject_Z (Z.of_nat div)))%Q)
                 (seq 0 (S div))
         end.

(** The interpolant of [np.interp] at one point [x], for the sample points
    [np.arange(len(fp))] and a non-empty [fp]: the end values outside the
    sample points, the chord between two neighbours inside. *)
Definition interp_at (fp : list Q) (x : Q) : Q :=
  let n := length fp in
  if Qle_bool (inject_Z (Z.of_nat (n - 1))) x then nth (n - 1) fp 0%Q
  else if Qle_bool x 0 then nth 0 fp 0%Q
  else
    let j := Z.to_nat (Qfloor x) in
    let lo := nth j fp 0%Q in
    let hi := nth (S j) fp 0%Q in
    ((hi - lo) * (x - inject_Z (Z.of_nat j)) + lo)%Q.

(** [np.interp(x, np.arange(len(fp)), fp)]; an empty array of sample points
    raises. *)
Definition interp (x : list Q) (fp : list Q) : option (list Q) :=
  match fp with
  | [] => None
  | _ => Some (map (interp_at fp) x)
  end.

End np.

(** [audio_data ** 2] *)
Definition squares (l : list Q) : list Q := map (fun x => (x * x)%Q) l.

(** [np.sqrt(m) > t] for a mean of squares [m], decided on the squares;
    [sqrt_gt_spec] below links it with the real square root. *)
Definition sqrt_gt (m t : Q) : bool :=
  if Qle_bool 0 t then negb (Qle_bool m (t * t)) else true.

(** The root-mean-square energy [np.sqrt(np.mean(audio_data ** 2))] as a
    real number; [None] is [nan]. *)
Definition rms (audio_data : list Q) : option R :=
  option_map (fun m => sqrt (Q2R m)) (np.mean (squares audio_data)).

(* ================================================================== *)
(** * Session state machine                                            *)
(* ================================================================== *)

(** [VoiceAgent._set_state]:
<<
    if self.state != state:
        self.state = state
        if self.on_state_change:
            self.on_state_change(state)
>> *)
Definition _set_state (s : AgentState) : M unit :=
  (a <- get ;;
   if AgentState_eqb (state a) s then ret tt
   else (modify (with_state s) ;;
         when (on_state_change a) (emit (StateChanged s))))%agent.

(* ================================================================== *)
(** * Audio ingest: resampling and voice-activity detection            *)
(* ================================================================== *)

(** [new_length = int(len(audio) * ratio)] with [ratio = target_sr / orig_sr],
    in exact arithmetic.  The code rounds the ratio and the product to
    binary64; where the exact product is an integer or just above one, the
    rounded product can fall below it and the code then takes one sample
    fewer (27 samples from 3000 Hz to 13000 Hz: 116 for the exact 117). *)
Definition new_length (n : nat) (orig_sr target_sr : Z) : Z :=
  let ratio := (inject_Z target_sr / inject_Z orig_sr)%Q in
  py_int (inject_Z (Z.of_nat n) * ratio).

(** [VoiceAgent._resample_audio].  [None] is a raised exception: the
    division by a zero rate, [np.linspace] with a negative count,
    [np.interp] on an empty array. *)
Definition _resample_audio (audio : list Q) (orig_sr target_sr : Z)
  : option (list Q) :=
  if (orig_sr =? target_sr)%Z then Some audio
  else if (orig_sr =? 0)%Z then None
  else
    let n := length audio in
    match np.linspace 0 (inject_Z (Z.of_nat n) - 1) (new_length n orig_sr target_sr) with
    | None => None
    | Some indices => np.interp indices audio
    end.

(** The threshold of [_detect_speech], a local constant of the method. *)
Definition speech_threshold : Q := 5 # 100.

(** [VoiceAgent._detect_speech].  The attribute [_last_speech_state] that
    the method also writes only selects a log line and is left out.  A mean
    that is [nan] would compare as False. *)
Definition _detect_speech (self : VoiceAgent) (audio_data : list Q) : bool :=
  if length audio_data =? 0 then false
  else
    match np.mean (squares audio_data) with
    | Some m => sqrt_gt m speech_threshold
    | None => false
    end.

(** An evaluation of [np.sqrt(np.mean(audio_data ** 2))], recorded by the
    mean of the squares it takes: [None] when the mean is [nan], which makes
    the energy [nan]. *)
Inductive Evaluation : Type :=
| EnergyEvaluated (mean_square : option Q).

(** [VoiceAgent._detect_speech] statement by statement, with the
    evaluations it makes: the early [return False] of the length test
    evaluates nothing, the rest of the body evaluates the energy once and
    compares it. *)
Definition _detect_speech_steps (self : VoiceAgent) (audio_data : list Q)
  : bool * list Evaluation :=
  if length audio_data =? 0 then (false, [])
  else
    let mean_square := np.mean (squares audio_data) in
    let is_speech := match mean_square with
                     | Some m => sqrt_gt m speech_threshold
                     | None => false
                     end in
    (is_speech, [EnergyEvaluated mean_square]).

(** [(audio_data * 32767).astype(np.int16)]; the samples are clipped to
    [-1, 1] before, so the product is inside the int16 range. *)
Definition to_int16 (audio_data : list Q) : list Z :=
  map (fun x => py_int (x * 32767)) audio_data.

(** The body of the loop of [VoiceAgent._process_audio_track] from the
    append to the rolling buffer on (lines 455-486), for one frame already
    decoded, normalised and resampled to [audio_data], received when the
    clock of the event loop reads [current_time]. *)
Definition process_frame (audio_data : list Q) (current_time : Q) : M unit :=
  (let audio_int16 := to_int16 audio_data in
   modify (fun a => with_audio_buffer (audio_buffer a ++ [audio_int16]) a) ;;
   self <- get ;;
   if AgentState_eqb (state self) SPEAKING then ret tt
   else if _detect_speech self audio_data then
     modify (with_last_speech_time current_time) ;;
     when (negb (is_speaking self))
          (modify (with_is_speaking true) ;; modify (with_speech_buffer [])) ;;
     modify (fun a => with_speech_buffer (speech_buffer a ++ [audio_int16]) a)
   else if is_speaking self then
     let silence := (current_time - last_speech_time self)%Q in
     if Qle_bool (silence_duration (config self)) silence then
       modify (with_is_speaking false) ;;
       emit PipelineSpawned ;;
       modify (with_audio_buffer [])
     else ret tt
   else ret tt)%agent.

(** A frame as it reaches the loop: the session state that the other tasks
    have left in [self.state] by then, the clock, and the samples. *)
Record Arrival : Type := {
  seen_state : AgentState;
  at_time : Q;
  samples : list Q
}.

Definition deliver (x : Arrival) (a : VoiceAgent) : VoiceAgent * list Event :=
  let r := process_frame (samples x) (at_time x) (with_state (seen_state x) a) in
  (agent_after r, trace r).

Arguments deliver : simpl never.

(** Frames in arrival order; the result lists the events of every frame. *)
Fixpoint deliver_all (xs : list Arrival) (a : VoiceAgent)
  : VoiceAgent * list (list Event) :=
  match xs with
  | [] => (a, [])
  | x :: rest =>
      let r := deliver x a in
      let rs := deliver_all rest (fst r) in
      (fst rs, snd r :: snd rs)
  end.

(* ================================================================== *)
(** * Conversation pipeline                                            *)
(* ================================================================== *)

(** The external collaborators.  Each answers a request or fails ([None]:
    any exception raised by the call or while its answer is read).  A
    successful generation answer carries [message.content], which the
    service may leave [None]; a successful synthesis answer carries the
    int16 samples of its PCM bytes. *)
Record Collaborators : Type := {
  stt_transcribe : list Q -> option (list string);
  llm_create : string -> list Message -> option (option string);
  tts_create : string -> string -> option (list Z)
}.

(** [audio_data.astype(np.float32) / 32767.0] *)
Definition audio_float_of (audio_data : list Z) : list Q :=
  map (fun z => (inject_Z z / 32767)%Q) audio_data.

(** [VoiceAgent._transcribe_audio]: the texts of the segments joined and
    stripped; every exception inside gives the empty transcript. *)
Definition _transcribe_audio (env : Collaborators) (audio_data : list Z)
  : M string :=
  (let audio_float := audio_float_of audio_data in
   match audio_float with
   | [] => ret EmptyString       (* audio_float.min() raises on an empty array *)
   | _ :: _ =>
       emit (SttCall audio_float) ;;
       match stt_transcribe env audio_float with
       | Some transcript_parts => ret (strip (join_spaces transcript_parts))
       | None => ret EmptyString
       end
   end)%agent.

Definition fallback_reply : string :=
  "I apologize, but I encountered an error processing your request.".

Definition user_turn (text : string) : Message :=
  {| role := user; content := Some text |}.

Definition assistant_turn (response_text : option string) : Message :=
  {| role := assistant; content := response_text |}.

(** The history after the user turn is appended and the list is cut to its
    last ten entries (lines 624-631). *)
Definition history_with_user_turn (h : list Message) (text : string)
  : list Message :=
  let h1 := h ++ [user_turn text] in
  if 10 <? length h1 then last_n 10 h1 else h1.

(** [VoiceAgent._get_llm_response].  The result is the returned reply;
    [None] is Python's [None], returned when the service left the content
    empty. *)
Definition _get_llm_response (env : Collaborators) (text : string)
  : M (option string) :=
  (modify (fun a => with_conversation_history
                      (history_with_user_turn (conversation_history a) text) a) ;;
   self <- get ;;
   let messages :=
     {| role := system; content := Some (llm_instructions (config self)) |}
       :: conversation_history self in
   emit (LlmCall (llm_model (config self)) messages) ;;
   match llm_create env (llm_model (config self)) messages with
   | Some response_text =>
       modify (fun a => with_conversation_history
                          (conversation_history a ++ [assistant_turn response_text]) a) ;;
       ret response_text
   | None => ret (Some fallback_reply)
   end)%agent.

(** The frames of [_synthesize_and_send]: [audio_data[i:i+chunk_size]] for
    [i] in [range(0, len(audio_data), chunk_size)], the last one padded with
    zeros. *)
Definition chunks (chunk_size : nat) (audio_data : list Z) : list (list Z) :=
  map (fun k =>
         let chunk := firstn chunk_size (skipn (k * chunk_size) audio_data) in
         chunk ++ repeat 0%Z (chunk_size - length chunk))
      (seq 0 ((length audio_data + chunk_size - 1) / chunk_size)).

(** What [_synthesize_and_send] hands to the outbound track: the body of
    its [try] block after the synthesis call.  The block ends at the first
    exception: a failed synthesis call, a failed resampling, the division by
    a zero chunk size in the log line before the loop; a negative chunk size
    gives an empty [range].  The outbound track exists ([connect] creates it
    before any frame can arrive). *)
Definition outbound_frames (env : Collaborators) (cfg : AgentConfig) (text : string)
  : list Event :=
  match tts_create env (tts_voice cfg) text with
  | None => []
  | Some pcm =>
      let rate := sample_rate cfg in
      let audio_data := map inject_Z pcm in
      match (if negb (rate =? 24000)%Z
             then _resample_audio audio_data 24000 rate
             else Some audio_data) with
      | None => []
      | Some resampled =>
          let audio_int16 := map py_int resampled in
          let chunk_size := py_int (inject_Z rate * (2 # 100)) in
          if (chunk_size =? 0)%Z then []
          else if (chunk_size <? 0)%Z then []
          else map AudioSent (chunks (Z.to_nat chunk_size) audio_int16)
      end
  end.

(** [VoiceAgent._synthesize_and_send]: Speaking, the synthesis call and the
    frames, and Connected again in the [finally] clause. *)
Definition _synthesize_and_send (env : Collaborators) (text : string) : M unit :=
  (_set_state SPEAKING ;;
   self <- get ;;
   emit (TtsCall (tts_voice (config self)) text) ;;
   emit_all (outbound_frames env (config self) text) ;;
   _set_state CONNECTED)%agent.

(** [VoiceAgent._process_speech].  The observers are taken not to raise.
    A reply that is [None] makes the log line after the generation step
    raise, which ends the [try] block; the last [_set_state] is the
    [finally] clause. *)
Definition _process_speech (env : Collaborators) : M unit :=
  (self <- get ;;
   match speech_buffer self with
   | [] => ret tt
   | _ :: _ =>
       _set_state PROCESSING ;;
       (transcript <- _transcribe_audio env (concat (speech_buffer self)) ;;
        when (on_transcript self) (emit (TranscriptNotified transcript)) ;;
        if str_is_empty (strip transcript) then _set_state CONNECTED
        else
          response <- _get_llm_response env transcript ;;
          match response with
          | None => ret tt
          | Some response_text =>
              when (on_response self) (emit (ResponseNotified response_text)) ;;
              _synthesize_and_send env response_text
          end) ;;
       _set_state CONNECTED
   end)%agent.

(* ================================================================== *)
(** * Audio ingest: decoding an inbound frame                          *)
(* ================================================================== *)

(** The element type of the array of a frame, as far as the loop tells
    types apart: [np.int16], [np.float32], anything else. *)
Inductive Dtype : Type := int16 | float32 | other_dtype.

(** The array that [frame.to_ndarray()] returns: one- or two-dimensional,
    the rows of a two-dimensional array all of one length. *)
Inductive NdArray : Type :=
| Arr1 (values : list Q)
| Arr2 (rows : list (list Q)).

(** A received frame: the result of [to_ndarray()] ([None]: it raises) and
    [frame.sample_rate]. *)
Record AudioFrame : Type := {
  to_ndarray : option (Dtype * NdArray);
  frame_rate : Z
}.

(** [audio_data.size] *)
Definition ndarray_size (arr : NdArray) : nat :=
  match arr with
  | Arr1 values => length values
  | Arr2 rows => length (concat rows)
  end.

(** [audio_data.mean(axis=0)]: the mean of every column. *)
Definition mean_axis0 (rows : list (list Q)) : list Q :=
  map (fun j => (fold_right Qplus 0%Q (map (fun row => nth j row 0%Q) rows)
                 / inject_Z (Z.of_nat (length rows)))%Q)
      (seq 0 (length (hd [] rows))).

(** The element type of a mean: float32 stays, the other types give a type
    that is neither int16 nor float32 (float64 for the integer types). *)
Definition mean_dtype (d : Dtype) : Dtype :=
  match d with float32 => float32 | _ => other_dtype end.

(** "Handle different shapes" (lines 410-417): to one dimension. *)
Definition to_mono (d : Dtype) (arr : NdArray) : Dtype * list Q :=
  match arr with
  | Arr1 values => (d, values)
  | Arr2 rows =>
      if 1 <? length rows then (mean_dtype d, mean_axis0 rows)
      else (d, concat rows)
  end.

(** [a.max()] and [a.min()]; both raise on an empty array. *)
Definition amax (a : list Q) : option Q :=
  match a with
  | [] => None
  | x :: r => Some (fold_left (fun m y => if Qle_bool m y then y else m) r x)
  end.

Definition amin (a : list Q) : option Q :=
  match a with
  | [] => None
  | x :: r => Some (fold_left (fun m y => if Qle_bool y m then y else m) r x)
  end.

(** [x > y] on floats. *)
Definition Qgt_bool (x y : Q) : bool := negb (Qle_bool x y).

(** "Normalize based on dtype" (lines 419-432). *)
Definition normalize (d : Dtype) (a : list Q) : option (list Q) :=
  match d with
  | int16 => Some (map (fun x => (x / 32768)%Q) a)
  | float32 => Some a
  | other_dtype =>
      match amax a, amin a with
      | Some hi, Some lo =>
          if Qgt_bool hi 1 || Qgt_bool (-1) lo
          then Some (map (fun x => (x / 32768)%Q) a)
          else Some a
      | _, _ => None
      end
  end.

(** [np.clip(a, lo, hi)] on one sample: [minimum(maximum(x, lo), hi)]. *)
Definition clip1 (lo hi x : Q) : Q :=
  let y := if Qle_bool x lo then lo else x in
  if Qle_bool hi y then hi else y.

(** Gain and clip (lines 434-440). *)
Definition gain_clip (a : list Q) : list Q :=
  map (fun x => clip1 (-1) 1 (x * 3)) a.

(** The frames whose number is a multiple of 100 are logged; the log lines
    take [min()] and [max()] of the array, which raises on an empty one. *)
Definition is_logged (frame_count : nat) : bool := frame_count mod 100 =? 0.

(** Lines 399-450 of [_process_audio_track]: from the received frame to the
    samples at 16 kHz.  [None] is an exception, which the loop answers by
    skipping the frame. *)
Definition prepare_frame (frame_count : nat) (frame : AudioFrame)
  : option (list Q) :=
  match to_ndarray frame with
  | None => None
  | Some (d, arr) =>
      if is_logged frame_count && (ndarray_size arr =? 0) then None
      else
        let '(d1, mono) := to_mono d arr in
        match normalize d1 mono with
        | None => None
        | Some normalized =>
            let audio_data := gain_clip normalized in
            if is_logged frame_count && (length audio_data =? 0) then None
            else if negb (frame_rate frame =? 16000)%Z
                 then _resample_audio audio_data (frame_rate frame) 16000
                 else Some audio_data
        end
  end.

(** One turn of the loop of [_process_audio_track]: the frame is prepared,
    and either skipped or handed to the rest of the body. *)
Definition on_frame (frame_count : nat) (frame : AudioFrame) (current_time : Q)
  : M unit :=
  match prepare_frame frame_count frame with
  | None => ret tt
  | Some audio_data => process_frame audio_data current_time
  end.

(** A frame of the track with the session state and the clock at its
    arrival. *)
Record TrackItem : Type := {
  item_frame : AudioFrame;
  item_state : AgentState;
  item_time : Q
}.

(** [VoiceAgent._process_audio_track] over the frames that the track
    delivers before it ends; [frame_count] is the number of frames received
    before.  The result lists the events of every frame. *)
Fixpoint _process_audio_track (frame_count : nat) (track : list TrackItem)
  (a : VoiceAgent) : VoiceAgent * list (list Event) :=
  match track with
  | [] => (a, [])
  | x :: rest =>
      let r := on_frame (S frame_count) (item_frame x) (item_time x)
                        (with_state (item_state x) a) in
      let rs := _process_audio_track (S frame_count) rest (agent_after r) in
      (fst rs, trace r :: snd rs)
  end.

(* ================================================================== *)
(** * The outbound audio track                                         *)
(* ================================================================== *)

(** [class AudioStreamTrack]: the queue of the chunks sent and not yet
    received, the running timestamp, the size of a 20 ms frame. *)
Record AudioStreamTrack : Type := {
  track_sample_rate : Z;
  track_channels : Z;
  _queue : list (list Z);
  _timestamp : Z;
  _samples_per_frame : Z
}.

(** [AudioStreamTrack.__init__] *)
Definition new_track (rate chans : Z) : AudioStreamTrack := {|
  track_sample_rate := rate;
  track_channels := chans;
  _queue := [];
  _timestamp := 0;
  _samples_per_frame := py_int (inject_Z rate * (2 # 100))
|}.

(** [AudioStreamTrack.send_audio] *)
Definition send_audio (audio_data : list Z) (t : AudioStreamTrack) : AudioStreamTrack :=
  {| track_sample_rate := track_sample_rate t;
     track_channels := track_channels t;
     _queue := _queue t ++ [audio_data];
     _timestamp := _timestamp t;
     _samples_per_frame := _samples_per_frame t |}.

(** The frame that [recv] returns: its samples, [sample_rate] and [pts];
    [time_base] is one over the sample rate. *)
Record OutFrame : Type := {
  out_samples : list Z;
  out_sample_rate : Z;
  out_pts : Z
}.

(** The values that a C [int] and a C [int64_t] hold: the attributes
    [sample_rate] and [pts] of a frame of the [av] library are of these
    types, and an assignment of another Python integer raises
    [OverflowError]. *)
Definition fits_c_int (z : Z) : bool :=
  ((- 2 ^ 31 <=? z) && (z <? 2 ^ 31))%Z.

Definition fits_int64 (z : Z) : bool :=
  ((- 2 ^ 63 <=? z) && (z <? 2 ^ 63))%Z.

(** [AudioStreamTrack.recv]: the next queued chunk, or silence when the
    wait on the queue times out, which is when nothing is queued and
    nothing is sent during the wait.  [None] is a raised exception:
    [np.zeros] on a negative frame size; the assignment of a sample rate
    that is no C [int], or of a timestamp that is no [int64_t];
    [fractions.Fraction(1, 0)] for a sample rate of zero; the assignment of
    a time base whose denominator, the absolute value of the rate, is no C
    [int].  [AudioFrame.from_ndarray] is taken to accept the array. *)
Definition recv (t : AudioStreamTrack) : option (OutFrame * AudioStreamTrack) :=
  let next (audio_data : list Z) (rest : list (list Z)) :=
    if negb (fits_c_int (track_sample_rate t)) then None
    else if negb (fits_int64 (_timestamp t)) then None
    else if (track_sample_rate t =? 0)%Z then None
    else if negb (fits_c_int (Z.abs (track_sample_rate t))) then None
    else
      Some ({| out_samples := audio_data;
               out_sample_rate := track_sample_rate t;
               out_pts := _timestamp t |},
            {| track_sample_rate := track_sample_rate t;
               track_channels := track_channels t;
               _queue := rest;
               _timestamp := (_timestamp t + _samples_per_frame t)%Z;
               _samples_per_frame := _samples_per_frame t |}) in
  match _queue t with
  | audio_data :: rest => next audio_data rest
  | [] =>
      if (_samples_per_frame t <? 0)%Z then None
      else next (repeat 0%Z (Z.to_nat (_samples_per_frame t))) []
  end.

(** The transport polling the track [n] times. *)
Fixpoint recv_many (n : nat) (t : AudioStreamTrack)
  : option (list OutFrame * AudioStreamTrack) :=
  match n with
  | 0 => Some ([], t)
  | S k =>
      match recv t with
      | None => None
      | Some (frame, t1) =>
          match recv_many k t1 with
          | None => None
          | Some (frames, t2) => Some (frame :: frames, t2)
          end
      end
  end.

(* ================================================================== *)
(** * Connection and signalling                                        *)
(* ================================================================== *)

(** The values of [json.loads] and the arguments of [json.dumps]; the
    fields of an object are in document order. *)
#[local] Unset Elimination Schemes.
Inductive Json : Type :=
| JNull
| JBool (b : bool)
| JNumber (q : Q)
| JString (s : string)
| JArray (items : list Json)
| JObject (fields : list (string * Json)).
#[local] Set Elimination Schemes.

(** The value of a key in a dict; [json.loads] keeps the last of the values
    that a document gives for a repeated key. *)
Fixpoint dict_item (key : string) (fields : list (string * Json)) : option Json :=
  match fields with
  | [] => None
  | (k, v) :: rest =>
      match dict_item key rest with
      | Some w => Some w
      | None => if String.eqb key k then Some v else None
      end
  end.

(** [x[key]] for a string key: [KeyError] on a dict without the key,
    [TypeError] on every other value ([None]). *)
Definition py_getitem (x : Json) (key : string) : option Json :=
  match x with
  | JObject fields => dict_item key fields
  | _ => None
  end.

(** [x.get(key)]: Python's [None] for a missing key; [AttributeError] on a
    value that is not a dict ([None]). *)
Definition py_get (x : Json) (key : string) : option Json :=
  match x with
  | JObject fields =>
      Some match dict_item key fields with
           | Some v => v
           | None => JNull
           end
  | _ => None
  end.

(** [x == s] for a string literal [s]. *)
Definition json_is (x : Json) (s : string) : bool :=
  match x with
  | JString t => String.eqb t s
  | _ => false
  end.

(** [RTCSessionDescription] *)
Record Description : Type := { desc_sdp : string; desc_type : string }.

(** The calls that leave the process, in the order made, and the events of
    the agent. *)
Inductive NetEvent : Type :=
| AgentEvent (e : Event)
| PeerConnectionCreated                          (* RTCPeerConnection(...) *)
| TrackAdded (t : AudioStreamTrack)              (* pc.addTrack(audio_track) *)
| WsConnect (url : string)                       (* websockets.connect(ws_url) *)
| ReceiveLoopSpawned           (* create_task(_handle_websocket_messages()) *)
| SetRemoteDescription (sdp type : Json)         (* pc.setRemoteDescription *)
| CreateAnswer                                   (* pc.createAnswer() *)
| SetLocalDescription (answer : Description)     (* pc.setLocalDescription *)
| AddIceCandidate (sdpMid sdpMLineIndex candidate : Json)
                                                 (* pc.addIceCandidate *)
| WsSend (msg : Json) (delivered : bool)         (* ws.send(json.dumps(msg)) *)
| PcClose                                        (* pc.close() *)
| WsClose.                                       (* ws.close() *)

(** The network side: whether each call succeeds, and what it returns.  The
    outcome of a call depends on its arguments only. *)
Record Network : Type := {
  ws_connect : string -> bool;
  ws_send : Json -> bool;
  ws_close : bool;
  pc_close : bool;
  (* RTCSessionDescription(sdp=..., type=...) and pc.setRemoteDescription *)
  setRemoteDescription : Json -> Json -> bool;
  createAnswer : option Description;
  (* pc.setLocalDescription(answer), and pc.localDescription after it *)
  setLocalDescription : Description -> option Description;
  (* RTCIceCandidate(sdpMid=..., sdpMLineIndex=..., candidate=...) *)
  RTCIceCandidate : Json -> Json -> Json -> bool;
  addIceCandidate : Json -> Json -> Json -> bool
}.

(** The agent with its connections: [self.pc] and [self.ws] are [None] or
    an object, [self.audio_track] is [None] or the outbound track. *)
Record Session : Type := {
  agent : VoiceAgent;
  pc : bool;
  ws : bool;
  audio_track : option AudioStreamTrack
}.

(** [VoiceAgent.__init__], the connection attributes included. *)
Definition new_session (cfg : AgentConfig) : Session :=
  {| agent := init cfg; pc := false; ws := false; audio_track := None |}.

Definition with_agent (a : VoiceAgent) (s : Session) : Session :=
  {| agent := a; pc := pc s; ws := ws s; audio_track := audio_track s |}.

Definition with_pc (b : bool) (s : Session) : Session :=
  {| agent := agent s; pc := b; ws := ws s; audio_track := audio_track s |}.

Definition with_ws (b : bool) (s : Session) : Session :=
  {| agent := agent s; pc := pc s; ws := b; audio_track := audio_track s |}.

Definition with_audio_track (t : option AudioStreamTrack) (s : Session) : Session :=
  {| agent := agent s; pc := pc s; ws := ws s; audio_track := t |}.

(** Computations on a session that may raise: the result is [None] when an
    exception leaves the computation; the session and the events up to the
    exception are kept. *)
Definition N (A : Type) : Type := Session -> option A * Session * list NetEvent.

Module Net.

Definition ret {A} (x : A) : N A := fun s => (Some x, s, []).

Definition raise {A} : N A := fun s => (None, s, []).

Definition bind {A B} (m : N A) (k : A -> N B) : N B :=
  fun s =>
    let '(x, s1, e1) := m s in
    match x with
    | None => (None, s1, e1)
    | Some v => let '(y, s2, e2) := k v s1 in (y, s2, e1 ++ e2)
    end.

Definition get : N Session := fun s => (Some s, s, []).
Definition modify (f : Session -> Session) : N unit := fun s => (Some tt, f s, []).
Definition emit (e : NetEvent) : N unit := fun s => (Some tt, s, [e]).

(** A method of the agent that does not raise. *)
Definition lift {A} (m : M A) : N A :=
  fun s =>
    let '(x, a, es) := m (agent s) in
    (Some x, with_agent a s, map AgentEvent es).

Definition of_option {A} (o : option A) : N A :=
  match o with
  | Some x => ret x
  | None => raise
  end.

(** A call that raises unless [ok]. *)
Definition call (e : NetEvent) (ok : bool) : N unit :=
  bind (emit e) (fun _ => if ok then ret tt else raise).

(** [try: body / except Exception: handler] *)
Definition try_except {A} (body handler : N A) : N A :=
  fun s =>
    let '(x, s1, e1) := body s in
    match x with
    | Some v => (Some v, s1, e1)
    | None => let '(y, s2, e2) := handler s1 in (y, s2, e1 ++ e2)
    end.

End Net.

Declare Scope net_scope.
Delimit Scope net_scope with net.
Notation "x <- m ;; k" := (Net.bind m (fun x => k))
  (at level 61, m at next level, right associativity) : net_scope.
Notation "m ;; k" := (Net.bind m (fun _ => k))
  (at level 61, right associativity) : net_scope.

(** The three components of a run on a session. *)
Definition outcome {A} (r : option A * Session * list NetEvent) : option A := fst (fst r).
Definition session_after {A} (r : option A * Session * list NetEvent) : Session :=
  snd (fst r).
Definition calls {A} (r : option A * Session * list NetEvent) : list NetEvent := snd r.

(** [f"{sfu_url}?room={room_name}&userId={user_id}"] *)
Definition ws_url (cfg : AgentConfig) : string :=
  (sfu_url cfg ++ "?room=" ++ room_name cfg ++ "&userId=" ++ user_id cfg)%string.

(** [VoiceAgent._connect_websocket]: the exception of a failed connection
    is raised again. *)
Definition _connect_websocket (net : Network) (url : string) : N unit :=
  (Net.emit (WsConnect url) ;;
   if ws_connect net url
   then Net.modify (with_ws true) ;; Net.emit ReceiveLoopSpawned
   else Net.raise)%net.

(** [VoiceAgent.connect].  The constructors of the peer connection and of
    the track, [addTrack] and the registration of the handlers are taken
    not to raise. *)
Definition connect (net : Network) : N unit :=
  (Net.lift (_set_state CONNECTING) ;;
   self <- Net.get ;;
   let cfg := config (agent self) in
   Net.modify (with_pc true) ;;
   Net.emit PeerConnectionCreated ;;
   let track := new_track (sample_rate cfg) (channels cfg) in
   Net.modify (with_audio_track (Some track)) ;;
   Net.emit (TrackAdded track) ;;
   _connect_websocket net (ws_url cfg) ;;
   Net.lift (_set_state CONNECTED))%net.

(** [VoiceAgent.disconnect] *)
Definition disconnect (net : Network) : N unit :=
  (self <- Net.get ;;
   (if pc self then Net.call PcClose (pc_close net) else Net.ret tt) ;;
   (if ws self then Net.call WsClose (ws_close net) else Net.ret tt) ;;
   Net.lift (_set_state DISCONNECTED))%net.

(** [VoiceAgent._send_message]: both branches of the test send when there
    is a socket; a failure of the send is logged and swallowed. *)
Definition _send_message (net : Network) (msg : Json) : N unit :=
  (self <- Net.get ;;
   if ws self then Net.emit (WsSend msg (ws_send net msg)) else Net.ret tt)%net.

(** The message that carries the local description. *)
Definition answer_message (local : Description) : Json :=
  JObject [("type"%string, JString "answer");
           ("data"%string,
            JObject [("sdp"%string, JString (desc_sdp local));
                     ("type"%string, JString (desc_type local))])].

(** [self.pc.method]: [AttributeError] when there is no peer connection. *)
Definition the_pc : N unit :=
  (self <- Net.get ;; if pc self then Net.ret tt else Net.raise)%net.

(** [VoiceAgent._handle_offer] *)
Definition _handle_offer (net : Network) (offer_data : Json) : N unit :=
  (the_pc ;;
   sdp <- Net.of_option (py_getitem offer_data "sdp") ;;
   type <- Net.of_option (py_getitem offer_data "type") ;;
   Net.call (SetRemoteDescription sdp type) (setRemoteDescription net sdp type) ;;
   Net.emit CreateAnswer ;;
   answer <- Net.of_option (createAnswer net) ;;
   Net.emit (SetLocalDescription answer) ;;
   local <- Net.of_option (setLocalDescription net answer) ;;
   _send_message net (answer_message local))%net.

(** [VoiceAgent._handle_answer] *)
Definition _handle_answer (net : Network) (answer_data : Json) : N unit :=
  (the_pc ;;
   sdp <- Net.of_option (py_getitem answer_data "sdp") ;;
   type <- Net.of_option (py_getitem answer_data "type") ;;
   Net.call (SetRemoteDescription sdp type) (setRemoteDescription net sdp type))%net.

(** [VoiceAgent._handle_ice_candidate]: the whole body is inside a [try]
    whose handler only logs. *)
Definition _handle_ice_candidate (net : Network) (candidate_data : Json) : N unit :=
  Net.try_except
    (sdpMid <- Net.of_option (py_get candidate_data "sdpMid") ;;
     sdpMLineIndex <- Net.of_option (py_get candidate_data "sdpMLineIndex") ;;
     candidate <- Net.of_option (py_get candidate_data "candidate") ;;
     (if RTCIceCandidate net sdpMid sdpMLineIndex candidate
      then Net.ret tt else Net.raise) ;;
     the_pc ;;
     Net.call (AddIceCandidate sdpMid sdpMLineIndex candidate)
              (addIceCandidate net sdpMid sdpMLineIndex candidate))%net
    (Net.ret tt).

(** [VoiceAgent._handle_signaling_message] *)
Definition _handle_signaling_message (net : Network) (msg : Json) : N unit :=
  (msg_type <- Net.of_option (py_get msg "type") ;;
   if json_is msg_type "offer" then
     data <- Net.of_option (py_getitem msg "data") ;; _handle_offer net data
   else if json_is msg_type "answer" then
     data <- Net.of_option (py_getitem msg "data") ;; _handle_answer net data
   else if json_is msg_type "candidate" then
     data <- Net.of_option (py_getitem msg "data") ;; _handle_ice_candidate net data
   else if json_is msg_type "client-left" then
     data <- Net.of_option (py_getitem msg "data") ;;
     client_id <- Net.of_option (py_get data "clientId") ;;
     Net.ret tt
   else Net.ret tt)%net.

(** How the iteration over the socket ends: a normal closure ends the loop,
    any other closure raises [ConnectionClosed]. *)
Inductive StreamEnd : Type := ClosedOk | ClosedError.

(** The body of the [try] of [_handle_websocket_messages]: the messages in
    arrival order, each through [json.loads], which raises on a text that
    is not JSON ([None]). *)
Fixpoint handle_stream (net : Network) (messages : list (option Json))
  (closure : StreamEnd) : N unit :=
  match messages with
  | [] =>
      match closure with
      | ClosedOk => Net.ret tt
      | ClosedError => Net.raise
      end
  | message :: rest =>
      (data <- Net.of_option message ;;
       _handle_signaling_message net data ;;
       handle_stream net rest closure)%net
  end.

(** [VoiceAgent._handle_websocket_messages]: both handlers disconnect. *)
Definition _handle_websocket_messages (net : Network)
  (messages : list (option Json)) (closure : StreamEnd) : N unit :=
  Net.try_except (handle_stream net messages closure) (disconnect net).

(* ================================================================== *)
(** * Vocabulary of the statements                                     *)
(* ================================================================== *)

(** The transitions drawn in section 4.3 of the specification. *)
Definition legal_transition (s t : AgentState) : bool :=
  match s, t with
  | DISCONNECTED, CONNECTING => true
  | CONNECTING, CONNECTED => true
  | CONNECTED, PROCESSING => true
  | PROCESSING, SPEAKING => true
  | SPEAKING, CONNECTED => true
  | _, DISCONNECTED => true
  | _, _ => false
  end.

(** Events by kind. *)
Definition is_flush (e : Event) : bool :=
  match e with PipelineSpawned => true | _ => false end.

Definition is_llm_call (e : Event) : bool :=
  match e with LlmCall _ _ => true | _ => false end.

Definition is_tts_call (e : Event) : bool :=
  match e with TtsCall _ _ => true | _ => false end.

Definition is_response (e : Event) : bool :=
  match e with ResponseNotified _ => true | _ => false end.

(** Whether a frame flushed the utterance to the conversation pipeline. *)
Definition flushed (es : list Event) : bool := existsb is_flush es.

(** The session states announced to the observer, in order. *)
Fixpoint announced (es : list Event) : list AgentState :=
  match es with
  | [] => []
  | StateChanged s :: r => s :: announced r
  | _ :: r => announced r
  end.

(** The request that [_get_llm_response] sends for a transcript. *)
Definition llm_request (a : VoiceAgent) (text : string) : list Message :=
  {| role := system; content := Some (llm_instructions (config a)) |}
    :: history_with_user_turn (conversation_history a) text.

(** The transcript that [_transcribe_audio] returns. *)
Definition transcript_of (env : Collaborators) (audio_data : list Z) : string :=
  match audio_float_of audio_data with
  | [] => EmptyString
  | _ :: _ =>
      match stt_transcribe env (audio_float_of audio_data) with
      | Some transcript_parts => strip (join_spaces transcript_parts)
      | None => EmptyString
      end
  end.

(** The events of a turn up to and including the transcript notification. *)
Definition turn_prefix (env : Collaborators) (a : VoiceAgent) : list Event :=
  let audio_array := concat (speech_buffer a) in
  trace (_set_state PROCESSING a)
  ++ match audio_float_of audio_array with
     | [] => []
     | _ :: _ => [SttCall (audio_float_of audio_array)]
     end
  ++ (if on_transcript a
      then [TranscriptNotified (transcript_of env audio_array)] else []).

(** Consecutive turns fed to [_get_llm_response], each with the transcript
    of its utterance and the collaborators as they behave during it. *)
Fixpoint turns (ts : list (Collaborators * string)) : M unit :=
  match ts with
  | [] => ret tt
  | (env, text) :: rest => (_get_llm_response env text ;; turns rest)%agent
  end.

(** What the ingest loop remembers between frames, for the silence rule. *)
Definition listening (cfg : AgentConfig) (since : Q) (a : VoiceAgent) : Prop :=
  config a = cfg /\ is_speaking a = true /\ last_speech_time a = since /\
  speech_buffer a <> [].

Definition quiet (cfg : AgentConfig) (a : VoiceAgent) : Prop :=
  config a = cfg /\ is_speaking a = false.

(** Rate A to rate B and back. *)
Definition resample_round_trip (audio : list Q) (rate_a rate_b : Z)
  : option (list Q) :=
  match _resample_audio audio rate_a rate_b with
  | Some there => _resample_audio there rate_b rate_a
  | None => None
  end.

(** ** Concrete agents, collaborators and frames *)

(** An agent in the state it is created in, with the three observers
    registered as [main] does. *)
Definition fresh_agent : VoiceAgent := with_observers (init (default_config "agent")).

(** An agent that is connected and has collected a one-frame utterance. *)
Definition heard_agent : VoiceAgent :=
  with_speech_buffer [[16383%Z]] (with_state CONNECTED fresh_agent).

(** Collaborators that all answer, with the generation reply [reply]. *)
Definition replying (reply : string) : Collaborators := {|
  stt_transcribe := fun _ => Some ["hello"%string];
  llm_create := fun _ _ => Some (Some reply);
  tts_create := fun _ _ => Some []
|}.

(** The same with one collaborator failing, or recognising only blanks. *)
Definition llm_failing : Collaborators := {|
  stt_transcribe := fun _ => Some ["hello"%string];
  llm_create := fun _ _ => None;
  tts_create := fun _ _ => Some []
|}.

Definition stt_failing : Collaborators := {|
  stt_transcribe := fun _ => None;
  llm_create := fun _ _ => Some (Some "ok"%string);
  tts_create := fun _ _ => Some []
|}.

Definition stt_blank : Collaborators := {|
  stt_transcribe := fun _ => Some ["  "; " "]%string;
  llm_create := fun _ _ => Some (Some "ok"%string);
  tts_create := fun _ _ => Some []
|}.

Definition six_turns : list (Collaborators * string) :=
  map (fun text => (replying "ok", text))
      ["one"; "two"; "three"; "four"; "five"; "six"]%string.

(** A loud frame and a silent frame. *)
Definition loud (t : Q) : Arrival :=
  {| seen_state := CONNECTED; at_time := t; samples := [1 # 2; -1 # 2] |}.

Definition silent (s : AgentState) (t : Q) : Arrival :=
  {| seen_state := s; at_time := t; samples := [0%Q; 0%Q] |}.

(** The samples 0, 1, ..., n - 1. *)
Definition ramp (n : nat) : list Q := map (fun i => inject_Z (Z.of_nat i)) (seq 0 n).

(** ** Vocabulary of the audio, track and signalling theorems *)

(** Samples inside an interval. *)
Definition within (lo hi : Q) (a : list Q) : Prop :=
  Forall (fun x => (lo <= x)%Q /\ (x <= hi)%Q) a.

(** Samples that fit the int16 type, as the buffers are meant to hold. *)
Definition fits_int16 (frame : list Z) : Prop :=
  Forall (fun v => (-32767 <= v <= 32767)%Z) frame.

(** The two buffers of the agent hold int16 frames only. *)
Definition buffers_fit (a : VoiceAgent) : Prop :=
  Forall fits_int16 (audio_buffer a) /\ Forall fits_int16 (speech_buffer a).

(** The number of samples per channel of a frame. *)
Definition mono_length (d : Dtype) (arr : NdArray) : nat :=
  length (snd (to_mono d arr)).

(** The frames of a track that the loop does not skip. *)
Fixpoint accepted (frame_count : nat) (track : list TrackItem) : nat :=
  match track with
  | [] => 0
  | x :: rest =>
      match prepare_frame (S frame_count) (item_frame x) with
      | Some _ => 1
      | None => 0
      end
      + accepted (S frame_count) rest
  end.

(** The int16 path in integers: three times the sample, saturated at one
    third of full scale, rescaled by 32767 / 32768 toward zero. *)
Definition boosted (z : Z) : Z :=
  if (32768 <=? 3 * z)%Z then 32767
  else if (3 * z <=? -32768)%Z then -32767
  else Z.quot (3 * z * 32767) 32768.

(** While an utterance is being collected it is not empty. *)
Definition utterance_ready (a : VoiceAgent) : Prop :=
  is_speaking a = true -> speech_buffer a <> [].

(** No white space in front. *)
Definition no_leading_space (s : list ascii) : Prop :=
  match s with
  | [] => True
  | c :: _ => py_isspace c = false
  end.

(** More events by kind. *)
Definition is_transcript (e : Event) : bool :=
  match e with TranscriptNotified _ => true | _ => false end.

Definition is_audio_sent (e : Event) : bool :=
  match e with AudioSent _ => true | _ => false end.

(** The silence frame of a track. *)
Definition silence (t : AudioStreamTrack) : list Z :=
  repeat 0%Z (Z.to_nat (_samples_per_frame t)).

(** Calls by kind. *)
Definition is_close (e : NetEvent) : bool :=
  match e with
  | PcClose | WsClose => true
  | _ => false
  end.

Definition is_send (e : NetEvent) : bool :=
  match e with
  | WsSend _ _ => true
  | _ => false
  end.

(** The state changes announced in a run on a session. *)
Definition announced_net (es : list NetEvent) : list AgentState :=
  flat_map (fun e => match e with
                     | AgentEvent (StateChanged s) => [s]
                     | _ => []
                     end) es.

(** The calls of the negotiation: descriptions, candidates, messages. *)
Definition is_negotiation (e : NetEvent) : bool :=
  match e with
  | SetRemoteDescription _ _ | CreateAnswer | SetLocalDescription _
  | AddIceCandidate _ _ _ | WsSend _ _ => true
  | _ => false
  end.

(** A handler that leaves the session as it was and only negotiates. *)
Definition negotiates {A} (m : N A) : Prop :=
  forall s, session_after (m s) = s /\
            Forall (fun e => is_negotiation e = true) (calls (m s)).

(** ** Concrete frames, tracks and networks *)

(** A mono int16 frame as the track delivers it. *)
Definition mono_frame (zs : list Z) (rate : Z) : AudioFrame :=
  {| to_ndarray := Some (int16, Arr2 [map inject_Z zs]); frame_rate := rate |}.

(** A loud frame, and a silent one two seconds later. *)
Definition example_track : list TrackItem :=
  [ {| item_frame := mono_frame [20000; -20000]%Z 16000;
       item_state := CONNECTED; item_time := 0 |};
    {| item_frame := mono_frame [0; 0]%Z 16000;
       item_state := CONNECTED; item_time := 2 |} ].

(** Two loud frames, the second at 48 kHz. *)
Definition speech_track : list TrackItem :=
  [ {| item_frame := mono_frame [20000; -20000]%Z 16000;
       item_state := CONNECTED; item_time := 0 |};
    {| item_frame := mono_frame [20000; -20000; 20000; -20000; 20000; -20000]%Z 48000;
       item_state := SPEAKING; item_time := 1 |} ].

(** Collaborators whose generation answer has no content, and whose
    synthesis fails. *)
Definition llm_silent : Collaborators := {|
  stt_transcribe := fun _ => Some ["hello"%string];
  llm_create := fun _ _ => Some None;
  tts_create := fun _ _ => Some []
|}.

Definition tts_failing : Collaborators := {|
  stt_transcribe := fun _ => Some ["hello"%string];
  llm_create := fun _ _ => Some (Some "ok"%string);
  tts_create := fun _ _ => None
|}.

(** A network on which every call succeeds. *)
Definition reliable : Network := {|
  ws_connect := fun _ => true;
  ws_send := fun _ => true;
  ws_close := true;
  pc_close := true;
  setRemoteDescription := fun _ _ => true;
  createAnswer := Some {| desc_sdp := "v=0"; desc_type := "answer" |};
  setLocalDescription := fun answer => Some answer;
  RTCIceCandidate := fun _ _ _ => true;
  addIceCandidate := fun _ _ _ => true
|}.

(** A session after a successful [connect]. *)
Definition connected_session : Session :=
  session_after (connect reliable (new_session (default_config "agent"))).

(** A candidate message, and a message of a kind the agent does not know. *)
Definition candidate_fields : list (string * Json) :=
  [("type"%string, JString "candidate");
   ("data"%string, JObject [("candidate"%string, JString "candidate:1")])].

Definition ping_fields : list (string * Json) :=
  [("type"%string, JString "ping")].

(* ================================================================== *)
(** * Proofs: running the monad                                        *)
(* ================================================================== *)

Ltac run_steps := unfold bind, get, modify, emit, emit_all, when, ret.

Lemma AgentState_eqb_eq (s t : AgentState) : AgentState_eqb s t = true <-> s = t.
Proof. unfold AgentState_eqb; destruct (AgentState_eq_dec s t); split; congruence. Qed.

Lemma AgentState_eqb_neq (s t : AgentState) : AgentState_eqb s t = false <-> s <> t.
Proof. unfold AgentState_eqb; destruct (AgentState_eq_dec s t); split; congruence. Qed.


(* ================================================================== *)
(** * Session state machine: what [_set_state] accepts                 *)
(* ================================================================== *)

Lemma set_state_run (s : AgentState) (a : VoiceAgent) :
  _set_state s a =
  if AgentState_eqb (state a) s then (tt, a, [])
  else (tt, with_state s a, if on_state_change a then [StateChanged s] else []).
Proof.
  unfold _set_state. run_steps.
  destruct (AgentState_eqb (state a) s); [reflexivity|].
  destruct (on_state_change a); reflexivity.
Qed.

Lemma set_state_state (s : AgentState) (a : VoiceAgent) :
  state (agent_after (_set_state s a)) = s.
Proof.
  rewrite set_state_run.
  destruct (AgentState_eqb (state a) s) eqn:E; [|reflexivity].
  now apply AgentState_eqb_eq in E.
Qed.

Lemma set_state_idem (s : AgentState) (a : VoiceAgent) :
  state a = s -> _set_state s a = (tt, a, []).
Proof.
  intros H. rewrite set_state_run.
  apply AgentState_eqb_eq in H. now rewrite H.
Qed.

Lemma set_state_config (s : AgentState) (a : VoiceAgent) :
  config (agent_after (_set_state s a)) = config a.
Proof. rewrite set_state_run. destruct (AgentState_eqb (state a) s); reflexivity. Qed.

Lemma set_state_history (s : AgentState) (a : VoiceAgent) :
  conversation_history (agent_after (_set_state s a)) = conversation_history a.
Proof. rewrite set_state_run. destruct (AgentState_eqb (state a) s); reflexivity. Qed.

Lemma set_state_trace_cases (s : AgentState) (a : VoiceAgent) :
  trace (_set_state s a) = [] \/ trace (_set_state s a) = [StateChanged s].
Proof.
  rewrite set_state_run.
  destruct (AgentState_eqb (state a) s); [now left|].
  destruct (on_state_change a); [now right | now left].
Qed.

Create Rewrite HintDb agent.
#[local] Hint Rewrite set_state_state set_state_config set_state_history : agent.

(** C2, as stated, fails: a request to go from Disconnected straight to
    Speaking is not among the transitions of section 4.3, yet [_set_state]
    changes the state and notifies the observer. *)
Lemma set_state_accepts_unlisted_transition :
  let r := _set_state SPEAKING fresh_agent in
  state fresh_agent = DISCONNECTED /\
  legal_transition DISCONNECTED SPEAKING = false /\
  state (agent_after r) = SPEAKING /\
  trace r = [StateChanged SPEAKING].
Proof. repeat split. Qed.

(** C2, amended: [_set_state] makes no legality check.  For every current
    state and every requested target the state afterwards is the target;
    the state changes exactly when the target differs from the current
    state, and then a registered observer is notified exactly once with the
    new state; a same-state request changes nothing and notifies nobody.
    Every transition of section 4.3 is therefore accepted, and so is every
    other one between distinct states. *)
Theorem set_state_accepts_every_change (a : VoiceAgent) (t : AgentState) :
  let r := _set_state t a in
  state (agent_after r) = t /\
  (state (agent_after r) <> state a <-> state a <> t) /\
  agent_after r = (if AgentState_eqb (state a) t then a else with_state t a) /\
  trace r = (if AgentState_eqb (state a) t then []
             else if on_state_change a then [StateChanged t] else []).
Proof.
  cbv zeta. split; [apply set_state_state|].
  split; [rewrite set_state_state; split; congruence|].
  rewrite set_state_run.
  destruct (AgentState_eqb (state a) t); split; reflexivity.
Qed.

(* ================================================================== *)
(** * Conversation history                                             *)
(* ================================================================== *)

Lemma last_n_length {A} (n : nat) (l : list A) :
  length (last_n n l) = Nat.min (length l) n.
Proof. unfold last_n. rewrite length_skipn. lia. Qed.

Lemma history_with_user_turn_length (h : list Message) (text : string) :
  length (history_with_user_turn h text) = Nat.min (S (length h)) 10.
Proof.
  unfold history_with_user_turn. cbv zeta.
  destruct (10 <? length (h ++ [user_turn text])) eqn:E.
  - rewrite last_n_length, length_app. simpl. lia.
  - apply Nat.ltb_ge in E. rewrite length_app in *. simpl in *. lia.
Qed.

Lemma history_with_user_turn_short (h : list Message) (text : string) :
  length h < 10 -> history_with_user_turn h text = h ++ [user_turn text].
Proof.
  intros H. unfold history_with_user_turn. cbv zeta.
  destruct (10 <? length (h ++ [user_turn text])) eqn:E; [|reflexivity].
  apply Nat.ltb_lt in E. rewrite length_app in E. simpl in E. lia.
Qed.

Lemma history_with_user_turn_last (h : list Message) (text : string) :
  exists front, history_with_user_turn h text = front ++ [user_turn text].
Proof.
  unfold history_with_user_turn. cbv zeta.
  destruct (10 <? length (h ++ [user_turn text])) eqn:E.
  - unfold last_n. rewrite length_app. simpl.
    replace (length h + 1 - 10) with (length h - 9) by lia.
    apply Nat.ltb_lt in E. rewrite length_app in E. simpl in E.
    rewrite skipn_app.
    replace (length h - 9 - length h) with 0 by lia. simpl.
    now exists (skipn (length h - 9) h).
  - now exists h.
Qed.

(** The two outcomes of [_get_llm_response], by the answer of the service to
    the request the method sends. *)
Lemma get_llm_response_run (env : Collaborators) (text : string) (a : VoiceAgent) :
  _get_llm_response env text a =
  let h := history_with_user_turn (conversation_history a) text in
  match llm_create env (llm_model (config a)) (llm_request a text) with
  | Some response_text =>
      (response_text,
       with_conversation_history (h ++ [assistant_turn response_text]) a,
       [LlmCall (llm_model (config a)) (llm_request a text)])
  | None =>
      (Some fallback_reply, with_conversation_history h a,
       [LlmCall (llm_model (config a)) (llm_request a text)])
  end.
Proof.
  unfold _get_llm_response, llm_request. run_steps.
  cbn [config conversation_history with_conversation_history].
  destruct (llm_create env _ _); reflexivity.
Qed.

(** The request never carries more than ten turns of history. *)
Lemma llm_request_bounded (a : VoiceAgent) (text : string) :
  length (llm_request a text) <= 11.
Proof.
  unfold llm_request. simpl. rewrite history_with_user_turn_length. lia.
Qed.


Lemma get_llm_response_over_cap
  (env : Collaborators) (text : string) (a : VoiceAgent) (reply : option string) :
  9 <= length (conversation_history a) ->
  llm_create env (llm_model (config a)) (llm_request a text) = Some reply ->
  length (conversation_history (agent_after (_get_llm_response env text a))) = 11.
Proof.
  intros Hn Hok. rewrite get_llm_response_run. cbv zeta. rewrite Hok. cbn.
  rewrite length_app, history_with_user_turn_length. simpl. lia.
Qed.

(** C1: the code misses the cap.  The history is cut to ten entries after
    the user turn is appended, but the assistant turn is appended after the
    cut: once five exchanges are stored, every further successful turn
    leaves eleven entries.  Here: six successful turns from the empty
    history; ten entries are stored before the sixth, ten go out with the
    sixth request, eleven are stored when the call returns. *)
Theorem history_holds_eleven_after_sixth_reply :
  let before := agent_after (turns (firstn 5 six_turns) fresh_agent) in
  let after := agent_after (turns six_turns fresh_agent) in
  length (conversation_history before) = 10 /\
  length (history_with_user_turn (conversation_history before) "six") = 10 /\
  length (conversation_history after) = 11.
Proof. repeat split. Qed.

(** C9, as stated, fails once ten entries are stored: after five successful
    turns a failing sixth leaves the history at ten entries, not eleven (the
    oldest entry is evicted for the user turn), and a successful sixth
    leaves eleven, not twelve. *)
Lemma llm_turn_at_full_history_not_longer :
  let before := agent_after (turns (firstn 5 six_turns) fresh_agent) in
  let failed := _get_llm_response llm_failing "six" before in
  let replied := _get_llm_response (replying "ok") "six" before in
  length (conversation_history before) = 10 /\
  result failed = Some fallback_reply /\
  length (conversation_history (agent_after failed)) = 10 /\
  length (conversation_history (agent_after replied)) = 11.
Proof. repeat split. Qed.

(** C9, amended: when the generation call fails the method returns the
    fallback text, the history is the old one with the user turn appended
    and cut to its last ten entries, so the user turn is its last entry, no
    assistant turn is appended and the length is [min (n + 1) 10]: one more
    than before exactly while fewer than ten entries were stored.  When the
    call succeeds the assistant turn follows the user turn as the last
    entry, and the history is two entries longer than before whenever that
    stays within the cap of ten. *)
Theorem llm_history_growth (env : Collaborators) (text : string) (a : VoiceAgent) :
  let h := conversation_history a in
  let r := _get_llm_response env text a in
  let h' := conversation_history (agent_after r) in
  match llm_create env (llm_model (config a)) (llm_request a text) with
  | None =>
      result r = Some fallback_reply /\
      h' = history_with_user_turn h text /\
      length h' = Nat.min (length h + 1) 10 /\
      last h' (user_turn text) = user_turn text /\
      (length h < 10 -> h' = h ++ [user_turn text])
  | Some response_text =>
      result r = response_text /\
      last h' (user_turn text) = assistant_turn response_text /\
      (length h + 2 <= 10 ->
       h' = h ++ [user_turn text; assistant_turn response_text])
  end.
Proof.
  cbv zeta. rewrite get_llm_response_run. cbv zeta.
  destruct (llm_create env _ _) as [response_text|]; cbn.
  - split; [reflexivity|]. split.
    + apply last_last.
    + intros H. rewrite history_with_user_turn_short by lia.
      now rewrite <- app_assoc.
  - split; [reflexivity|]. split; [reflexivity|]. split.
    + rewrite history_with_user_turn_length. lia.
    + split.
      * destruct (history_with_user_turn_last (conversation_history a) text)
          as [front ->]. apply last_last.
      * apply history_with_user_turn_short.
Qed.

(* ================================================================== *)
(** * Conversation pipeline: the turn and its failure policy           *)
(* ================================================================== *)

Section Turn.

Variable env : Collaborators.

Lemma transcribe_audio_run (audio_data : list Z) (a : VoiceAgent) :
  _transcribe_audio env audio_data a =
  (transcript_of env audio_data, a,
   match audio_float_of audio_data with
   | [] => []
   | _ :: _ => [SttCall (audio_float_of audio_data)]
   end).
Proof.
  unfold _transcribe_audio, transcript_of. cbv zeta.
  destruct (audio_float_of audio_data) as [|x l]; [reflexivity|].
  run_steps.
  destruct (stt_transcribe env (x :: l)); reflexivity.
Qed.

(** A failed recognition, and a recognised text that is blank after
    trimming, both give a transcript that the pipeline finds blank. *)
Lemma transcript_blank (audio_data : list Z) :
  stt_transcribe env (audio_float_of audio_data) = None \/
  (exists parts, stt_transcribe env (audio_float_of audio_data) = Some parts /\
                 strip (join_spaces parts) = EmptyString) ->
  str_is_empty (strip (transcript_of env audio_data)) = true.
Proof.
  intros H. unfold transcript_of.
  destruct (audio_float_of audio_data) as [|x l]; [reflexivity|].
  destruct H as [-> | [parts [-> E]]]; [reflexivity|].
  rewrite E. reflexivity.
Qed.

Lemma synthesize_and_send_run (text : string) (a : VoiceAgent) :
  _synthesize_and_send env text a =
  (tt, agent_after (_set_state CONNECTED (agent_after (_set_state SPEAKING a))),
   trace (_set_state SPEAKING a)
   ++ [TtsCall (tts_voice (config a)) text]
   ++ outbound_frames env (config a) text
   ++ trace (_set_state CONNECTED (agent_after (_set_state SPEAKING a)))).
Proof.
  unfold _synthesize_and_send. run_steps.
  pose proof (set_state_config SPEAKING a) as Hc.
  destruct (_set_state SPEAKING a) as [[[] a1] e1].
  cbn [agent_after trace fst snd] in *. rewrite Hc.
  destruct (_set_state CONNECTED a1) as [[[] a2] e2].
  cbn [agent_after trace fst snd app]. reflexivity.
Qed.

(** One run of [_process_speech] on a non-empty utterance buffer, step by
    step: the events up to the transcript, then the three ways the turn can
    go on. *)
Lemma process_speech_run (a : VoiceAgent) :
  speech_buffer a <> [] ->
  let a1 := agent_after (_set_state PROCESSING a) in
  let transcript := transcript_of env (concat (speech_buffer a)) in
  _process_speech env a =
  if str_is_empty (strip transcript) then
    (tt, agent_after (_set_state CONNECTED a1),
     turn_prefix env a ++ trace (_set_state CONNECTED a1))
  else
    let g := _get_llm_response env transcript a1 in
    match result g with
    | None =>
        (tt, agent_after (_set_state CONNECTED (agent_after g)),
         turn_prefix env a ++ trace g
         ++ trace (_set_state CONNECTED (agent_after g)))
    | Some response_text =>
        let s := _synthesize_and_send env response_text (agent_after g) in
        (tt, agent_after s,
         turn_prefix env a ++ trace g
         ++ (if on_response a then [ResponseNotified response_text] else [])
         ++ trace s)
    end.
Proof.
  intros Hne. cbv zeta.
  unfold _process_speech, turn_prefix.
  unfold bind at 1. unfold get at 1.
  destruct (speech_buffer a) as [|f fs] eqn:Hb; [contradiction|].
  rewrite <- Hb. clear Hb Hne f fs.
  set (audio_array := concat (speech_buffer a)).
  unfold bind at 1.
  destruct (_set_state PROCESSING a) as [[[] a1] e1] eqn:E1.
  cbn [agent_after trace fst snd].
  unfold bind at 1. unfold bind at 1.
  rewrite transcribe_audio_run.
  set (transcript := transcript_of env audio_array).
  set (e2 := match audio_float_of audio_array with [] => [] | _ :: _ => _ end).
  unfold bind at 1.
  assert (Hw : when (on_transcript a) (emit (TranscriptNotified transcript)) a1
               = (tt, a1, if on_transcript a then [TranscriptNotified transcript] else [])).
  { destruct (on_transcript a); reflexivity. }
  rewrite Hw. clear Hw.
  destruct (str_is_empty (strip transcript)).
  - destruct (_set_state CONNECTED a1) as [[[] a2] e3] eqn:E3.
    assert (H2 : state a2 = CONNECTED).
    { change a2 with (agent_after (tt, a2, e3)). rewrite <- E3. apply set_state_state. }
    rewrite (set_state_idem CONNECTED a2 H2).
    cbn [agent_after trace fst snd]. rewrite !app_nil_r, <- !app_assoc. reflexivity.
  - unfold bind at 1.
    destruct (_get_llm_response env transcript a1) as [[response a2] e3] eqn:E3.
    cbn [result agent_after trace fst snd].
    destruct response as [response_text|].
    + unfold bind at 1.
      assert (Hw : when (on_response a) (emit (ResponseNotified response_text)) a2
                   = (tt, a2, if on_response a then [ResponseNotified response_text] else [])).
      { destruct (on_response a); reflexivity. }
      rewrite Hw. clear Hw.
      destruct (_synthesize_and_send env response_text a2) as [[[] a3] e4] eqn:E4.
      assert (H3 : state a3 = CONNECTED).
      { change a3 with (agent_after (tt, a3, e4)). rewrite <- E4.
        rewrite synthesize_and_send_run. cbn [agent_after fst snd].
        apply set_state_state. }
      rewrite (set_state_idem CONNECTED a3 H3).
      cbn [agent_after trace fst snd]. rewrite !app_nil_r, <- !app_assoc. reflexivity.
    + unfold ret.
      destruct (_set_state CONNECTED a2) as [[[] a3] e4].
      cbn [agent_after trace fst snd]. rewrite <- !app_assoc. reflexivity.
Qed.

Lemma filter_set_state_trace (p : Event -> bool) (s : AgentState) (a : VoiceAgent) :
  (forall t, p (StateChanged t) = false) ->
  filter p (trace (_set_state s a)) = [].
Proof.
  intros H. destruct (set_state_trace_cases s a) as [-> | ->]; simpl;
    [reflexivity | now rewrite H].
Qed.

Lemma filter_turn_prefix (p : Event -> bool) (a : VoiceAgent) :
  (forall t, p (StateChanged t) = false) ->
  (forall x, p (SttCall x) = false) ->
  (forall x, p (TranscriptNotified x) = false) ->
  filter p (turn_prefix env a) = [].
Proof.
  intros H1 H2 H3. unfold turn_prefix. cbv zeta.
  rewrite !filter_app, filter_set_state_trace by assumption.
  destruct (audio_float_of _); destruct (on_transcript a); simpl;
    rewrite ?H2, ?H3; reflexivity.
Qed.

Lemma filter_outbound_frames (p : Event -> bool) (cfg : AgentConfig) (text : string) :
  (forall x, p (AudioSent x) = false) ->
  filter p (outbound_frames env cfg text) = [].
Proof.
  intros H. unfold outbound_frames.
  destruct (tts_create env _ text) as [pcm|]; [|reflexivity].
  cbv zeta.
  destruct (if negb _ then _ else _) as [resampled|]; [|reflexivity].
  destruct (_ =? 0)%Z; [reflexivity|].
  destruct (_ <? 0)%Z; [reflexivity|].
  induction (chunks _ _) as [|c cs IH]; simpl; [reflexivity|].
  now rewrite H.
Qed.

Lemma announced_app (es fs : list Event) :
  announced (es ++ fs) = announced es ++ announced fs.
Proof.
  induction es as [|e es IH]; [reflexivity|].
  destruct e; simpl; now rewrite IH.
Qed.

Lemma announced_set_state (s : AgentState) (a : VoiceAgent) :
  announced (trace (_set_state s a)) = [] \/
  announced (trace (_set_state s a)) = [s].
Proof. destruct (set_state_trace_cases s a) as [-> | ->]; [now left | now right]. Qed.

Lemma announced_turn_prefix (a : VoiceAgent) :
  announced (turn_prefix env a) = announced (trace (_set_state PROCESSING a)).
Proof.
  unfold turn_prefix. cbv zeta. rewrite !announced_app.
  destruct (audio_float_of _); destruct (on_transcript a); simpl;
    now rewrite app_nil_r.
Qed.

Lemma llm_request_after_set_state (s : AgentState) (a : VoiceAgent) (text : string) :
  llm_request (agent_after (_set_state s a)) text = llm_request a text.
Proof. unfold llm_request. now autorewrite with agent. Qed.

(** Whatever the collaborators do, a turn that starts ends in Connected. *)
Lemma process_speech_ends_connected (a : VoiceAgent) :
  speech_buffer a <> [] ->
  state (agent_after (_process_speech env a)) = CONNECTED.
Proof.
  intros Hne. rewrite (process_speech_run a Hne). cbv zeta.
  destruct (str_is_empty _); [apply set_state_state|].
  destruct (result _); cbn [agent_after fst snd].
  - rewrite synthesize_and_send_run. apply set_state_state.
  - apply set_state_state.
Qed.

(** C6: on a started turn, when the recognition call fails, or returns
    segments whose joined text is blank after trimming, the pipeline makes
    no generation call and no synthesis call, leaves the history as it was,
    and the session state goes back to Connected without passing through
    Speaking: the observer is told Processing and Connected at most. *)
Theorem blank_transcript_ends_turn (a : VoiceAgent) :
  speech_buffer a <> [] ->
  (stt_transcribe env (audio_float_of (concat (speech_buffer a))) = None \/
   exists parts,
     stt_transcribe env (audio_float_of (concat (speech_buffer a))) = Some parts /\
     strip (join_spaces parts) = EmptyString) ->
  let r := _process_speech env a in
  filter is_llm_call (trace r) = [] /\
  filter is_tts_call (trace r) = [] /\
  state (agent_after r) = CONNECTED /\
  conversation_history (agent_after r) = conversation_history a /\
  Forall (fun s => s = PROCESSING \/ s = CONNECTED) (announced (trace r)).
Proof.
  intros Hne Hblank. cbv zeta.
  split; [|split; [|split; [now apply process_speech_ends_connected|]]];
    rewrite (process_speech_run a Hne); cbv zeta;
    rewrite (transcript_blank _ Hblank); cbn [trace agent_after fst snd].
  - rewrite filter_app, filter_turn_prefix, filter_set_state_trace; reflexivity.
  - rewrite filter_app, filter_turn_prefix, filter_set_state_trace; reflexivity.
  - split.
    + now autorewrite with agent.
    + rewrite announced_app, announced_turn_prefix. apply Forall_app. split.
      * destruct (announced_set_state PROCESSING a) as [-> | ->];
          [constructor | constructor; [now left | constructor]].
      * destruct (announced_set_state CONNECTED
                    (agent_after (_set_state PROCESSING a))) as [-> | ->];
          [constructor | constructor; [now right | constructor]].
Qed.

(** C7: on a turn whose transcript is not blank, when the generation call
    fails, [_get_llm_response] returns the fallback text; the pipeline then
    notifies a registered response observer with it and makes exactly one
    synthesis call, with the fallback text as input; and the turn ends with
    the session state Connected, whether that synthesis call succeeds or
    not. *)
Theorem llm_failure_falls_back (a : VoiceAgent) :
  let transcript := transcript_of env (concat (speech_buffer a)) in
  speech_buffer a <> [] ->
  str_is_empty (strip transcript) = false ->
  llm_create env (llm_model (config a)) (llm_request a transcript) = None ->
  let r := _process_speech env a in
  result (_get_llm_response env transcript
            (agent_after (_set_state PROCESSING a))) = Some fallback_reply /\
  filter is_tts_call (trace r) = [TtsCall (tts_voice (config a)) fallback_reply] /\
  filter is_response (trace r) =
    (if on_response a then [ResponseNotified fallback_reply] else []) /\
  state (agent_after r) = CONNECTED.
Proof.
  intros transcript Hne Hnb Hfail. cbv zeta.
  assert (Hg : _get_llm_response env transcript (agent_after (_set_state PROCESSING a))
               = (Some fallback_reply,
                  with_conversation_history
                    (history_with_user_turn (conversation_history a) transcript)
                    (agent_after (_set_state PROCESSING a)),
                  [LlmCall (llm_model (config a)) (llm_request a transcript)])).
  { rewrite get_llm_response_run. cbv zeta.
    rewrite llm_request_after_set_state, set_state_config, set_state_history.
    now rewrite Hfail. }
  split; [now rewrite Hg|].
  split; [|split; [|now apply process_speech_ends_connected]];
    rewrite (process_speech_run a Hne); cbv zeta;
    fold transcript; rewrite Hnb, Hg; cbn [result agent_after trace fst snd];
    rewrite synthesize_and_send_run; cbn [trace snd config with_conversation_history];
    rewrite set_state_config;
    rewrite !filter_app, filter_turn_prefix, !filter_set_state_trace,
      filter_outbound_frames by reflexivity.
  - destruct (on_response a); reflexivity.
  - destruct (on_response a); reflexivity.
Qed.

End Turn.

(** C6 at work: a recognition call that fails, and one that returns only
    blanks, for the agent that has heard one frame. *)
Lemma blank_transcript_ends_turn_witness :
  (let r := _process_speech stt_failing heard_agent in
   filter is_llm_call (trace r) = [] /\
   filter is_tts_call (trace r) = [] /\
   state (agent_after r) = CONNECTED /\
   conversation_history (agent_after r) = conversation_history heard_agent /\
   Forall (fun s => s = PROCESSING \/ s = CONNECTED) (announced (trace r))) /\
  (let r := _process_speech stt_blank heard_agent in
   filter is_llm_call (trace r) = [] /\
   filter is_tts_call (trace r) = [] /\
   state (agent_after r) = CONNECTED /\
   conversation_history (agent_after r) = conversation_history heard_agent /\
   Forall (fun s => s = PROCESSING \/ s = CONNECTED) (announced (trace r))).
Proof.
  split.
  - apply (blank_transcript_ends_turn stt_failing heard_agent).
    + discriminate.
    + left. reflexivity.
  - apply (blank_transcript_ends_turn stt_blank heard_agent).
    + discriminate.
    + right. exists ["  "; " "]%string. split; reflexivity.
Defined.

(** C7 at work: the transcript is "hello" and the generation call fails. *)
Lemma llm_failure_falls_back_witness :
  let r := _process_speech llm_failing heard_agent in
  result (_get_llm_response llm_failing "hello"
            (agent_after (_set_state PROCESSING heard_agent))) = Some fallback_reply /\
  filter is_tts_call (trace r) = [TtsCall "alloy" fallback_reply] /\
  filter is_response (trace r) = [ResponseNotified fallback_reply] /\
  state (agent_after r) = CONNECTED.
Proof.
  apply (llm_failure_falls_back llm_failing heard_agent).
  - discriminate.
  - reflexivity.
  - reflexivity.
Defined.

(* ================================================================== *)
(** * Audio ingest: the voice-activity rule frame by frame             *)
(* ================================================================== *)

(** The result of [_detect_speech] does not depend on the agent. *)
Lemma detect_speech_self (a b : VoiceAgent) (audio_data : list Q) :
  _detect_speech a audio_data = _detect_speech b audio_data.
Proof. reflexivity. Qed.

Lemma process_frame_run (audio_data : list Q) (current_time : Q) (a : VoiceAgent) :
  process_frame audio_data current_time a =
  let audio_int16 := to_int16 audio_data in
  let a0 := with_audio_buffer (audio_buffer a ++ [audio_int16]) a in
  if AgentState_eqb (state a) SPEAKING then (tt, a0, [])
  else if _detect_speech a audio_data then
    let a1 := with_last_speech_time current_time a0 in
    let a2 := if is_speaking a then a1
              else with_speech_buffer [] (with_is_speaking true a1) in
    (tt, with_speech_buffer (speech_buffer a2 ++ [audio_int16]) a2, [])
  else if is_speaking a then
    if Qle_bool (silence_duration (config a)) (current_time - last_speech_time a)
    then (tt, with_audio_buffer [] (with_is_speaking false a0), [PipelineSpawned])
    else (tt, a0, [])
  else (tt, a0, []).
Proof.
  unfold process_frame. run_steps. cbv zeta.
  cbn [state is_speaking config last_speech_time with_audio_buffer].
  rewrite (detect_speech_self _ a).
  destruct (AgentState_eqb (state a) SPEAKING); [reflexivity|].
  destruct (_detect_speech a audio_data).
  - destruct (is_speaking a); reflexivity.
  - destruct (is_speaking a); [|reflexivity].
    destruct (Qle_bool _ _); reflexivity.
Qed.

(** C3, as stated, fails: with the session state Processing a loud frame
    marks a speech start and enters the utterance buffer, and a later silent
    frame flushes the utterance to the pipeline. *)
Lemma frames_during_processing_run_vad :
  let a := with_state PROCESSING fresh_agent in
  let r1 := process_frame [1 # 2] 1 a in
  let r2 := process_frame [0%Q] 3 (agent_after r1) in
  (state a = PROCESSING /\ is_speaking a = false /\ speech_buffer a = []) /\
  (state (agent_after r1) = PROCESSING /\
   is_speaking (agent_after r1) = true /\
   speech_buffer (agent_after r1) = [[16383%Z]]) /\
  trace r2 = [PipelineSpawned].
Proof. repeat split. Qed.

(** C3, amended: the voice-activity rule is suspended while the session
    state is Speaking, and only then.  A frame that arrives during Speaking
    is appended to the rolling buffer and nothing else happens: no speech
    start, no utterance append, no flush.  A frame that arrives during
    Processing is handled exactly as one that arrives during Connected: the
    same events (a flush included) and the same agent afterwards, up to the
    session state itself. *)
Theorem vad_suspended_only_while_speaking
  (audio_data : list Q) (current_time : Q) (a : VoiceAgent) :
  process_frame audio_data current_time (with_state SPEAKING a) =
    (tt,
     with_audio_buffer (audio_buffer a ++ [to_int16 audio_data])
                       (with_state SPEAKING a),
     []) /\
  (let busy := process_frame audio_data current_time (with_state PROCESSING a) in
   let idle := process_frame audio_data current_time (with_state CONNECTED a) in
   trace busy = trace idle /\
   agent_after busy = with_state PROCESSING (agent_after idle)).
Proof.
  split; [reflexivity|]. cbv zeta.
  rewrite !process_frame_run. cbv zeta.
  cbn [state is_speaking config last_speech_time with_state].
  rewrite (detect_speech_self (with_state PROCESSING a) a),
          (detect_speech_self (with_state CONNECTED a) a).
  change (AgentState_eqb PROCESSING SPEAKING) with false.
  change (AgentState_eqb CONNECTED SPEAKING) with false.
  cbv iota.
  destruct (_detect_speech a audio_data).
  - destruct (is_speaking a); split; reflexivity.
  - destruct (is_speaking a); [|split; reflexivity].
    destruct (Qle_bool _ _); split; reflexivity.
Qed.

Lemma deliver_all_cons (x : Arrival) (xs : list Arrival) (a : VoiceAgent) :
  deliver_all (x :: xs) a =
  (fst (deliver_all xs (fst (deliver x a))),
   snd (deliver x a) :: snd (deliver_all xs (fst (deliver x a)))).
Proof. reflexivity. Qed.

Lemma deliver_all_app (xs ys : list Arrival) (a : VoiceAgent) :
  deliver_all (xs ++ ys) a =
  (fst (deliver_all ys (fst (deliver_all xs a))),
   snd (deliver_all xs a) ++ snd (deliver_all ys (fst (deliver_all xs a)))).
Proof.
  revert a. induction xs as [|x xs IH]; intros a; simpl.
  - now destruct (deliver_all ys a).
  - now rewrite IH.
Qed.

Section OneFrame.

Variables (x : Arrival) (a : VoiceAgent).

(** A frame classified as speech, with the rule not suspended: no flush, and
    the silence clock restarts at its arrival time. *)
Lemma deliver_speech :
  seen_state x <> SPEAKING ->
  _detect_speech a (samples x) = true ->
  snd (deliver x a) = [] /\ listening (config a) (at_time x) (fst (deliver x a)).
Proof.
  intros Hs Hd. unfold deliver. rewrite process_frame_run. cbv zeta.
  cbn [state with_state]. apply AgentState_eqb_neq in Hs. rewrite Hs.
  rewrite (detect_speech_self _ a), Hd.
  cbn [is_speaking with_state].
  destruct (is_speaking a) eqn:E; repeat split;
    try exact E; cbn; first [discriminate | apply not_eq_sym, app_cons_not_nil].
Qed.

(** A silent frame before the silence has lasted [silence_duration]: no
    flush, whatever the session state, and the clock keeps running. *)
Lemma deliver_silence_early (since : Q) :
  listening (config a) since a ->
  _detect_speech a (samples x) = false ->
  (at_time x - since < silence_duration (config a))%Q ->
  snd (deliver x a) = [] /\ listening (config a) since (fst (deliver x a)).
Proof.
  intros [_ [Hl [Ht Hb]]] Hd Hlt. unfold deliver. rewrite process_frame_run. cbv zeta.
  cbn [state with_state is_speaking config last_speech_time].
  rewrite (detect_speech_self _ a), Hd, Hl, Ht.
  destruct (AgentState_eqb (seen_state x) SPEAKING); [repeat split; assumption|].
  destruct (Qle_bool (silence_duration (config a)) (at_time x - since)) eqn:E.
  - apply Qle_bool_iff in E. exfalso. exact (Qlt_not_le _ _ Hlt E).
  - repeat split; assumption.
Qed.

(** The silent frame that finds the silence at least [silence_duration]
    long, with the rule not suspended: the flush. *)
Lemma deliver_silence_due (since : Q) :
  listening (config a) since a ->
  seen_state x <> SPEAKING ->
  _detect_speech a (samples x) = false ->
  (silence_duration (config a) <= at_time x - since)%Q ->
  snd (deliver x a) = [PipelineSpawned] /\ quiet (config a) (fst (deliver x a)) /\
  speech_buffer (fst (deliver x a)) <> [].
Proof.
  intros [_ [Hl [Ht Hb]]] Hs Hd Hle. unfold deliver. rewrite process_frame_run. cbv zeta.
  cbn [state with_state is_speaking config last_speech_time].
  apply AgentState_eqb_neq in Hs. rewrite Hs.
  rewrite (detect_speech_self _ a), Hd, Hl, Ht.
  apply Qle_bool_iff in Hle. rewrite Hle. repeat split. exact Hb.
Qed.

(** A silent frame outside speech mode: nothing happens. *)
Lemma deliver_silence_quiet :
  quiet (config a) a ->
  _detect_speech a (samples x) = false ->
  snd (deliver x a) = [] /\ quiet (config a) (fst (deliver x a)).
Proof.
  intros [_ Hq] Hd. unfold deliver. rewrite process_frame_run. cbv zeta.
  cbn [state with_state is_speaking config last_speech_time].
  rewrite (detect_speech_self _ a), Hd, Hq.
  destruct (AgentState_eqb (seen_state x) SPEAKING); repeat split; assumption.
Qed.

End OneFrame.

Lemma deliver_all_speech (xs : list Arrival) (x : Arrival) (a : VoiceAgent) :
  Forall (fun y => seen_state y <> SPEAKING /\ _detect_speech a (samples y) = true)
         (xs ++ [x]) ->
  map flushed (snd (deliver_all (xs ++ [x]) a)) = repeat false (length xs + 1) /\
  listening (config a) (at_time x) (fst (deliver_all (xs ++ [x]) a)).
Proof.
  revert a. induction xs as [|y ys IH]; intros a H.
  - inversion H as [|? ? [Hs Hd] _]; subst.
    destruct (deliver_speech x a Hs Hd) as [He Hl].
    cbn [app]. rewrite deliver_all_cons.
    cbn [deliver_all fst snd map length Nat.add repeat].
    rewrite He. now split.
  - rewrite <- app_comm_cons in *.
    inversion H as [|? ? [Hs Hd] Hrest]; subst.
    destruct (deliver_speech y a Hs Hd) as [He [Hc _]].
    rewrite deliver_all_cons. cbn [fst snd map length Nat.add repeat].
    specialize (IH (fst (deliver y a))). rewrite Hc in IH.
    destruct (IH Hrest) as [IH1 IH2].
    rewrite He, IH1. now split.
Qed.

Lemma deliver_all_early (xs : list Arrival) (a : VoiceAgent) (since : Q) :
  listening (config a) since a ->
  Forall (fun y => _detect_speech a (samples y) = false /\
                   (at_time y - since < silence_duration (config a))%Q) xs ->
  map flushed (snd (deliver_all xs a)) = repeat false (length xs) /\
  listening (config a) since (fst (deliver_all xs a)).
Proof.
  revert a. induction xs as [|y ys IH]; intros a Hl H.
  - now split.
  - inversion H as [|? ? [Hd Hlt] Hrest]; subst.
    destruct (deliver_silence_early y a since Hl Hd Hlt) as [He Hl1].
    assert (Hc : config (fst (deliver y a)) = config a) by apply Hl1.
    rewrite deliver_all_cons. cbn [fst snd map length repeat].
    specialize (IH (fst (deliver y a))). rewrite Hc in IH.
    destruct (IH Hl1 Hrest) as [IH1 IH2].
    rewrite He, IH1. now split.
Qed.

Lemma deliver_all_quiet (xs : list Arrival) (a : VoiceAgent) :
  quiet (config a) a ->
  Forall (fun y => _detect_speech a (samples y) = false) xs ->
  map flushed (snd (deliver_all xs a)) = repeat false (length xs).
Proof.
  revert a. induction xs as [|y ys IH]; intros a Hq H.
  - reflexivity.
  - inversion H as [|? ? Hd Hrest]; subst.
    destruct (deliver_silence_quiet y a Hq Hd) as [He Hq1].
    assert (Hc : config (fst (deliver y a)) = config a) by apply Hq1.
    rewrite deliver_all_cons. cbn [fst snd map length repeat].
    specialize (IH (fst (deliver y a))). rewrite Hc in IH.
    rewrite He, (IH Hq1 Hrest). reflexivity.
Qed.

(** C5: a speech run ([speech] and its last frame [final], all classified
    as speech with the rule not suspended) followed by silent frames.  The
    silent frames [early] arrive before the silence since [final] has
    lasted [silence_duration]; [due] is the first to find it at least that
    long (exactly that long included), with the rule not suspended; [late]
    are the silent frames after it, in any session state.  Then the
    utterance is flushed to the pipeline exactly once, by the frame [due]:
    no frame before it flushes and no frame after it does; and the pipeline
    task spawned by [due] finds the utterance buffer not empty. *)
Theorem one_flush_at_silence_boundary
  (a : VoiceAgent) (speech : list Arrival) (final : Arrival)
  (early : list Arrival) (due : Arrival) (late : list Arrival) :
  Forall (fun x => seen_state x <> SPEAKING /\ _detect_speech a (samples x) = true)
         (speech ++ [final]) ->
  Forall (fun x => _detect_speech a (samples x) = false /\
                   (at_time x - at_time final < silence_duration (config a))%Q)
         early ->
  seen_state due <> SPEAKING ->
  _detect_speech a (samples due) = false ->
  (silence_duration (config a) <= at_time due - at_time final)%Q ->
  Forall (fun x => _detect_speech a (samples x) = false) late ->
  map flushed
      (snd (deliver_all ((speech ++ [final]) ++ early ++ due :: late) a)) =
  repeat false (length speech + 1 + length early)
  ++ true :: repeat false (length late) /\
  speech_buffer (fst (deliver_all ((speech ++ [final]) ++ early ++ [due]) a)) <> [].
Proof.
  intros Hspeech Hearly Hstate Hsilent Hdue Hlate.
  destruct (deliver_all_speech speech final a Hspeech) as [F1 L1].
  set (a1 := fst (deliver_all (speech ++ [final]) a)) in *.
  assert (C1 : config a1 = config a) by apply L1.
  rewrite <- C1 in L1, Hearly, Hdue.
  destruct (deliver_all_early early a1 (at_time final) L1 Hearly) as [F2 L2].
  set (a2 := fst (deliver_all early a1)) in *.
  assert (C2 : config a2 = config a1) by apply L2.
  rewrite <- C2 in L2, Hdue.
  destruct (deliver_silence_due due a2 (at_time final) L2 Hstate Hsilent Hdue)
    as [F3 [Q3 B3]].
  set (a3 := fst (deliver due a2)) in *.
  assert (C3 : config a3 = config a2) by apply Q3.
  rewrite <- C3 in Q3.
  pose proof (deliver_all_quiet late a3 Q3 Hlate) as F4.
  split.
  - rewrite (deliver_all_app (speech ++ [final])). cbn [snd]. fold a1.
    rewrite (deliver_all_app early). cbn [snd]. fold a2.
    rewrite (deliver_all_cons due). cbn [snd]. fold a3.
    rewrite !map_app. cbn [map]. rewrite F1, F2, F3, F4.
    rewrite (repeat_app false (length speech + 1)), <- app_assoc. reflexivity.
  - rewrite (deliver_all_app (speech ++ [final])). cbn [fst]. fold a1.
    rewrite (deliver_all_app early). cbn [fst]. fold a2.
    exact B3.
Qed.

(** C5 at work with the default [silence_duration] of 1.5 s: speech at 0 s
    and 1 s, silence at 2 s (early), at 2.5 s (exactly due), and three more
    silent frames. *)
Lemma one_flush_at_silence_boundary_witness :
  map flushed
      (snd (deliver_all (([loud 0] ++ [loud 1])
                         ++ [silent CONNECTED 2]
                         ++ silent CONNECTED (5 # 2)
                         :: [silent PROCESSING 3; silent SPEAKING 4; silent CONNECTED 5])
                        fresh_agent)) =
  repeat false (1 + 1 + 1) ++ true :: repeat false 3 /\
  speech_buffer
    (fst (deliver_all (([loud 0] ++ [loud 1])
                       ++ [silent CONNECTED 2] ++ [silent CONNECTED (5 # 2)])
                      fresh_agent)) <> [].
Proof.
  apply (one_flush_at_silence_boundary fresh_agent [loud 0] (loud 1)
           [silent CONNECTED 2] (silent CONNECTED (5 # 2))
           [silent PROCESSING 3; silent SPEAKING 4; silent CONNECTED 5]).
  - repeat constructor; discriminate.
  - repeat constructor.
  - discriminate.
  - reflexivity.
  - discriminate.
  - repeat constructor.
Defined.

(* ================================================================== *)
(** * Voice-activity detection: the threshold of [_detect_speech]      *)
(* ================================================================== *)

(** [sqrt_gt] decides the comparison of the real square root. *)
Lemma sqrt_gt_spec (m t : Q) :
  sqrt_gt m t = true <-> (Q2R t < sqrt (Q2R m))%R.
Proof.
  unfold sqrt_gt.
  destruct (Qle_bool 0 t) eqn:Et.
  - apply Qle_bool_iff in Et. apply Qle_Rle in Et.
    replace (Q2R 0) with 0%R in Et by (unfold Q2R; simpl; lra).
    assert (Hsq : sqrt (Q2R (t * t)) = Q2R t).
    { rewrite Q2R_mult. now apply sqrt_square. }
    rewrite negb_true_iff. split.
    + intros H. rewrite <- Hsq. apply sqrt_lt_1_alt. split.
      * rewrite Q2R_mult. now apply Rmult_le_pos.
      * apply Qlt_Rlt. apply Qnot_le_lt. intros Hle.
        apply Qle_bool_iff in Hle. congruence.
    + intros H. destruct (Qle_bool m (t * t)) eqn:E; [|reflexivity].
      apply Qle_bool_iff in E. apply Qle_Rle in E.
      apply sqrt_le_1_alt in E. rewrite Hsq in E. lra.
  - split; [intros _|reflexivity].
    assert (Hneg : (t < 0)%Q).
    { apply Qnot_le_lt. intros Hle. apply Qle_bool_iff in Hle. congruence. }
    apply Qlt_Rlt in Hneg.
    replace (Q2R 0) with 0%R in Hneg by (unfold Q2R; simpl; lra).
    pose proof (sqrt_pos (Q2R m)). lra.
Qed.

Lemma mean_nonempty (l : list Q) :
  l <> [] -> exists m, np.mean l = Some m.
Proof. destruct l; [contradiction|]. intros _. eexists. reflexivity. Qed.

(** C4, as stated, fails: with the configuration defaults the threshold of
    the configuration is 0.00000001; a frame of energy 0.01 exceeds it and
    [_detect_speech] still classifies the frame as silence. *)
Lemma detect_speech_ignores_vad_threshold :
  vad_threshold (config fresh_agent) = 1 # 100000000 /\
  _detect_speech fresh_agent [1 # 100] = false /\
  exists energy : R,
    rms [1 # 100] = Some energy /\
    (Q2R (vad_threshold (config fresh_agent)) < energy)%R.
Proof.
  split; [reflexivity|]. split; [reflexivity|].
  eexists. split; [reflexivity|].
  apply sqrt_gt_spec. reflexivity.
Qed.

(** C4, amended: a frame is classified as speech if and only if it is not
    empty and its root-mean-square energy exceeds 0.05, a constant of
    [_detect_speech]; the classification is the same for every agent and so
    for every configuration: [AgentConfig.vad_threshold] is not read. *)
Theorem detect_speech_fixed_threshold (self : VoiceAgent) (audio_data : list Q) :
  (_detect_speech self audio_data = true <->
   exists energy : R,
     rms audio_data = Some energy /\ (Q2R speech_threshold < energy)%R) /\
  Q2R speech_threshold = (5 / 100)%R /\
  (forall other : VoiceAgent,
     _detect_speech other audio_data = _detect_speech self audio_data).
Proof.
  split; [|split; [unfold speech_threshold, Q2R; simpl; lra | reflexivity]].
  unfold _detect_speech, rms.
  destruct audio_data as [|x l].
  - simpl. split; [discriminate|]. intros [e [H _]]. discriminate.
  - change (length (x :: l) =? 0) with false. cbv iota.
    destruct (np.mean (squares (x :: l))) as [m|]; simpl.
    + rewrite sqrt_gt_spec. split.
      * intros H. eexists. split; [reflexivity|exact H].
      * intros [e [He H]]. injection He as <-. exact H.
    + split; [discriminate|]. intros [e [H _]]. discriminate.
Qed.

(** C10: on the empty frame [_detect_speech] returns False and evaluates
    no energy, although the energy of the empty frame is [nan] (the mean of
    an empty array, here [None]).  On every frame, of finite samples, the
    detector returns the classification of [_detect_speech]; it evaluates
    the energy exactly when the frame is not empty, once, and every energy
    it evaluates is a number: the square root of a mean that is defined. *)
Theorem detect_speech_empty_frame (self : VoiceAgent) :
  _detect_speech_steps self [] = (false, []) /\
  rms [] = None /\
  (forall audio_data : list Q,
     let r := _detect_speech_steps self audio_data in
     fst r = _detect_speech self audio_data /\
     length (snd r) = (if length audio_data =? 0 then 0 else 1) /\
     Forall (fun evaluation =>
               exists m, evaluation = EnergyEvaluated (Some m) /\
                         rms audio_data = Some (sqrt (Q2R m)))
            (snd r)).
Proof.
  split; [reflexivity|]. split; [reflexivity|].
  intros audio_data. cbv zeta. unfold _detect_speech_steps, _detect_speech.
  destruct audio_data as [|x l]; [repeat split; constructor|].
  change (length (x :: l) =? 0) with false. cbv iota zeta. cbn [fst snd].
  split; [reflexivity|]. split; [reflexivity|].
  destruct (mean_nonempty (squares (x :: l))) as [m Hm]; [discriminate|].
  constructor; [|constructor].
  exists m. split; [now rewrite Hm|]. unfold rms. now rewrite Hm.
Qed.

(* ================================================================== *)
(** * Resampling: the length of a round trip                           *)
(* ================================================================== *)

Lemma linspace_length (start stop : Q) (num : Z) :
  (0 <= num)%Z ->
  exists l, np.linspace start stop num = Some l /\ length l = Z.to_nat num.
Proof.
  intros H. unfold np.linspace.
  replace (num <? 0)%Z with false by (symmetry; apply Z.ltb_ge; exact H).
  eexists. split; [reflexivity|].
  destruct (Z.to_nat num) as [|[|k]]; [reflexivity | reflexivity |].
  now rewrite length_map, length_seq.
Qed.

(** For positive rates the new length is the integer quotient. *)
Lemma new_length_quotient (n : nat) (orig_sr target_sr : Z) :
  (0 < orig_sr)%Z -> (0 <= target_sr)%Z ->
  new_length n orig_sr target_sr = (Z.of_nat n * target_sr / orig_sr)%Z.
Proof.
  intros Ho Ht. destruct orig_sr as [|p|p]; try lia.
  unfold new_length, py_int, Qdiv, Qinv, Qmult, inject_Z. cbn [Qnum Qden].
  rewrite Z.mul_1_r, !Pos.mul_1_l.
  apply Z.quot_div_nonneg; lia.
Qed.

(** One call between different positive rates: it raises on the empty
    array and otherwise returns [new_length] samples. *)
Lemma resample_audio_length (audio : list Q) (orig_sr target_sr : Z) :
  (0 < orig_sr)%Z -> (0 < target_sr)%Z -> orig_sr <> target_sr ->
  match _resample_audio audio orig_sr target_sr with
  | None => audio = []
  | Some out =>
      audio <> [] /\
      Z.of_nat (length out) = (Z.of_nat (length audio) * target_sr / orig_sr)%Z
  end.
Proof.
  intros Ho Ht Hne. unfold _resample_audio.
  apply Z.eqb_neq in Hne. rewrite Hne.
  replace (orig_sr =? 0)%Z with false by (symmetry; apply Z.eqb_neq; lia).
  cbv zeta. rewrite new_length_quotient by lia.
  assert (Hq : (0 <= Z.of_nat (length audio) * target_sr / orig_sr)%Z).
  { apply Z.div_pos; lia. }
  destruct (linspace_length 0 (inject_Z (Z.of_nat (length audio)) - 1) _ Hq)
    as [indices [-> Hlen]].
  destruct audio as [|x l]; [reflexivity|].
  split; [discriminate|].
  unfold np.interp. rewrite length_map, Hlen. now apply Z2Nat.id.
Qed.

(** C8, as stated, fails: eleven samples taken from 48000 Hz to 8000 Hz and
    back come out as six, a loss of five samples; and a single sample taken
    from 48000 Hz to 16000 Hz and back yields no array at all, because the
    first call returns the empty array and the second call raises on it. *)
Lemma resample_round_trip_loses_samples :
  length (ramp 11) = 11 /\
  option_map (@length Q) (resample_round_trip (ramp 11) 48000 8000) = Some 6 /\
  resample_round_trip [1 # 2] 48000 16000 = None.
Proof. repeat split. Qed.

(** C8, amended (lengths in exact arithmetic): for equal rates
    [_resample_audio] returns its input unchanged.  For different positive
    rates A and B and an array of [n] samples, the round trip A to B to A
    raises when [n * B < A] (the intermediate array is empty); otherwise it
    yields [m] samples with [m <= n] and [(n - m) * B < A + B]: fewer than
    [1 + A / B] samples are lost, at most one when [A <= B]. *)
Theorem resample_round_trip_length (audio : list Q) (rate_a rate_b : Z) :
  (0 < rate_a)%Z -> (0 < rate_b)%Z ->
  let n := Z.of_nat (length audio) in
  _resample_audio audio rate_a rate_a = Some audio /\
  (rate_a <> rate_b ->
   match resample_round_trip audio rate_a rate_b with
   | None => (n * rate_b < rate_a)%Z
   | Some back =>
       let m := Z.of_nat (length back) in
       (rate_a <= n * rate_b)%Z /\ (m <= n)%Z /\
       ((n - m) * rate_b < rate_a + rate_b)%Z /\
       (rate_a <= rate_b -> n - m <= 1)%Z
   end).
Proof.
  intros Ha Hb n. split.
  - unfold _resample_audio. now rewrite Z.eqb_refl.
  - intros Hne. unfold resample_round_trip.
    pose proof (resample_audio_length audio rate_a rate_b Ha Hb Hne) as H1.
    destruct (_resample_audio audio rate_a rate_b) as [there|].
    + destruct H1 as [_ H1]. fold n in H1.
      assert (Hne' : rate_b <> rate_a) by congruence.
      pose proof (resample_audio_length there rate_b rate_a Hb Ha Hne') as H2.
      rewrite H1 in H2.
      pose proof (Z.mul_div_le (n * rate_b) rate_a Ha) as D1.
      pose proof (Z.mul_succ_div_gt (n * rate_b) rate_a Ha) as D1'.
      set (k := (n * rate_b / rate_a)%Z) in *.
      destruct (_resample_audio there rate_b rate_a) as [back|].
      * destruct H2 as [Hthere H2]. cbv zeta. rewrite H2.
        pose proof (Z.mul_div_le (k * rate_a) rate_b Hb) as D2.
        pose proof (Z.mul_succ_div_gt (k * rate_a) rate_b Hb) as D2'.
        set (m := (k * rate_a / rate_b)%Z) in *.
        assert (Hk : (1 <= k)%Z).
        { destruct there; [contradiction|]. simpl length in H1. lia. }
        repeat split; try nia.
      * subst there. simpl in H1. nia.
    + subst audio. simpl in n. subst n. lia.
Qed.

(** C8 at work: eleven samples, 48000 Hz to 8000 Hz and back. *)
Lemma resample_round_trip_length_witness :
  _resample_audio (ramp 11) 48000 48000 = Some (ramp 11) /\
  (48000 <> 8000 ->
   match resample_round_trip (ramp 11) 48000 8000 with
   | None => (11 * 8000 < 48000)%Z
   | Some back =>
       (48000 <= 11 * 8000)%Z /\ (Z.of_nat (length back) <= 11)%Z /\
       ((11 - Z.of_nat (length back)) * 8000 < 48000 + 8000)%Z /\
       (48000 <= 8000 -> 11 - Z.of_nat (length back) <= 1)%Z
   end)%Z.
Proof.
  apply (resample_round_trip_length (ramp 11) 48000 8000); reflexivity.
Defined.

(* ================================================================== *)
(** * Audio ingest: what a decoded frame looks like                    *)
(* ================================================================== *)

Lemma Qle_bool_false (x y : Q) : Qle_bool x y = false -> (y < x)%Q.
Proof.
  intros H. apply Qnot_le_lt. intros Hle.
  apply Qle_bool_iff in Hle. congruence.
Qed.

Lemma clip1_within (lo hi x : Q) :
  (lo <= hi)%Q -> (lo <= clip1 lo hi x)%Q /\ (clip1 lo hi x <= hi)%Q.
Proof.
  intros H. unfold clip1.
  destruct (Qle_bool x lo) eqn:E1.
  - destruct (Qle_bool hi lo) eqn:E2.
    + split; [exact H | apply Qle_refl].
    + split; [apply Qle_refl | exact H].
  - apply Qle_bool_false in E1.
    destruct (Qle_bool hi x) eqn:E2.
    + split; [exact H | apply Qle_refl].
    + apply Qle_bool_false in E2. split; apply Qlt_le_weak; assumption.
Qed.

Lemma gain_clip_within (a : list Q) : within (-1) 1 (gain_clip a).
Proof.
  unfold within, gain_clip. apply Forall_forall. intros y Hy.
  apply in_map_iff in Hy. destruct Hy as [x [<- _]].
  apply clip1_within. discriminate.
Qed.

Lemma within_nth (lo hi : Q) (a : list Q) (j : nat) :
  within lo hi a -> j < length a ->
  (lo <= nth j a 0)%Q /\ (nth j a 0 <= hi)%Q.
Proof.
  intros H Hj. unfold within in H. rewrite Forall_forall in H.
  apply H. now apply nth_In.
Qed.

(** The interpolant stays between the bounds of the samples. *)
Lemma interp_at_within (lo hi : Q) (fp : list Q) (x : Q) :
  fp <> [] -> within lo hi fp ->
  (lo <= np.interp_at fp x)%Q /\ (np.interp_at fp x <= hi)%Q.
Proof.
  intros Hne H. unfold np.interp_at. cbv zeta.
  assert (Hlen : 0 < length fp) by (destruct fp; [contradiction | simpl; lia]).
  destruct (Qle_bool (inject_Z (Z.of_nat (length fp - 1))) x) eqn:E1.
  - apply within_nth; [exact H | lia].
  - apply Qle_bool_false in E1.
    destruct (Qle_bool x 0) eqn:E2.
    + apply within_nth; [exact H | lia].
    + apply Qle_bool_false in E2.
      set (j := Z.to_nat (Qfloor x)).
      assert (Hf0 : (0 <= Qfloor x)%Z).
      { change 0%Z with (Qfloor 0). apply Qfloor_resp_le. now apply Qlt_le_weak. }
      assert (Hj : inject_Z (Z.of_nat j) = inject_Z (Qfloor x)).
      { unfold j. now rewrite Z2Nat.id. }
      pose proof (Qfloor_le x) as F1. pose proof (Qlt_floor x) as F2.
      assert (Hjn : S j < length fp).
      { assert (Hz : (Qfloor x < Z.of_nat (length fp - 1))%Z).
        { rewrite Zlt_Qlt. eapply Qle_lt_trans; [exact F1 | exact E1]. }
        unfold j. lia. }
      destruct (within_nth lo hi fp j H) as [A1 A2]; [lia|].
      destruct (within_nth lo hi fp (S j) H Hjn) as [B1 B2].
      rewrite Hj.
      set (u := nth j fp 0%Q) in *. set (v := nth (S j) fp 0%Q) in *.
      set (t := (x - inject_Z (Qfloor x))%Q).
      assert (T0 : (0 <= t)%Q) by (unfold t; Lqa.lra).
      assert (T1 : (t <= 1)%Q).
      { unfold t. rewrite inject_Z_plus in F2. change (inject_Z 1) with 1%Q in F2. Lqa.lra. }
      split; Lqa.nra.
Qed.

(** Linear interpolation stays between the samples it joins. *)
Lemma resample_audio_bounds (lo hi : Q) (audio out : list Q) (orig_sr target_sr : Z) :
  within lo hi audio ->
  _resample_audio audio orig_sr target_sr = Some out ->
  within lo hi out.
Proof.
  intros H. unfold _resample_audio.
  destruct (orig_sr =? target_sr)%Z; [intros [= <-]; exact H|].
  destruct (orig_sr =? 0)%Z; [discriminate|]. cbv zeta.
  destruct (np.linspace _ _ _) as [indices|]; [|discriminate].
  unfold np.interp. destruct audio as [|s rest] eqn:Ea; [discriminate|].
  intros [= <-]. unfold within. apply Forall_forall. intros y Hy.
  apply in_map_iff in Hy. destruct Hy as [x [<- _]].
  apply interp_at_within; [discriminate | exact H].
Qed.

(** X1: resampling never leaves the range of its input.  If every sample
    of the input lies between [lo] and [hi], so does every sample of the
    output, for all rates. *)
Theorem resample_audio_within (lo hi : Q) (audio out : list Q) (orig_sr target_sr : Z) :
  within lo hi audio ->
  _resample_audio audio orig_sr target_sr = Some out ->
  within lo hi out.
Proof. exact (resample_audio_bounds lo hi audio out orig_sr target_sr). Qed.

Lemma py_int_bounded (q : Q) (N : Z) :
  (0 <= N)%Z -> (- inject_Z N <= q)%Q -> (q <= inject_Z N)%Q ->
  (- N <= py_int q <= N)%Z.
Proof.
  intros HN Hlo Hhi. destruct q as [n d]. unfold py_int, Qle, inject_Z in *.
  cbn [Qnum Qden Qopp] in *. rewrite Z.mul_1_r in *.
  assert (E1 : (Z.quot (- N * Zpos d) (Zpos d) = - N)%Z) by (apply Z.quot_mul; discriminate).
  assert (E2 : (Z.quot (N * Zpos d) (Zpos d) = N)%Z) by (apply Z.quot_mul; discriminate).
  pose proof (Z.quot_le_mono (- N * Zpos d) n (Zpos d) eq_refl Hlo) as L1.
  pose proof (Z.quot_le_mono n (N * Zpos d) (Zpos d) eq_refl Hhi) as L2.
  lia.
Qed.

Lemma to_int16_fits (audio_data : list Q) :
  within (-1) 1 audio_data -> fits_int16 (to_int16 audio_data).
Proof.
  intros H. unfold fits_int16, to_int16. apply Forall_forall. intros v Hv.
  apply in_map_iff in Hv. destruct Hv as [x [<- Hx]].
  unfold within in H. rewrite Forall_forall in H. destruct (H x Hx) as [H1 H2].
  apply (py_int_bounded (x * 32767) 32767); [lia | |].
  - change (- inject_Z 32767)%Q with (- (32767))%Q. Lqa.lra.
  - change (inject_Z 32767) with 32767%Q. Lqa.lra.
Qed.

(** Every frame that the loop does not skip is inside [-1, 1]. *)
Lemma prepare_frame_within (frame_count : nat) (frame : AudioFrame) (audio_data : list Q) :
  prepare_frame frame_count frame = Some audio_data ->
  within (-1) 1 audio_data.
Proof.
  unfold prepare_frame.
  destruct (to_ndarray frame) as [[d arr]|]; [|discriminate].
  destruct (_ && _); [discriminate|].
  destruct (to_mono d arr) as [d1 mono].
  destruct (normalize d1 mono) as [normalized|]; [|discriminate].
  cbv zeta. destruct (_ && _); [discriminate|].
  destruct (negb _).
  - apply resample_audio_bounds, gain_clip_within.
  - intros [= <-]. apply gain_clip_within.
Qed.

Lemma process_frame_buffers_fit (audio_data : list Q) (t : Q) (a : VoiceAgent) :
  within (-1) 1 audio_data -> buffers_fit a ->
  buffers_fit (agent_after (process_frame audio_data t a)).
Proof.
  intros Hw [Ha Hs]. pose proof (to_int16_fits audio_data Hw) as Hf.
  rewrite process_frame_run. cbv zeta. unfold buffers_fit.
  destruct (AgentState_eqb (state a) SPEAKING).
  { cbn. split; [apply Forall_app; split; [exact Ha | now constructor] | exact Hs]. }
  destruct (_detect_speech a audio_data).
  { destruct (is_speaking a); cbn; split;
      try (apply Forall_app; split; [assumption | now constructor]);
      now constructor. }
  destruct (is_speaking a).
  - destruct (Qle_bool _ _); cbn; split; try assumption; try constructor.
    apply Forall_app; split; [exact Ha | now constructor].
  - cbn. split; [apply Forall_app; split; [exact Ha | now constructor] | exact Hs].
Qed.

Lemma with_state_buffers_fit (s : AgentState) (a : VoiceAgent) :
  buffers_fit a -> buffers_fit (with_state s a).
Proof. intros H. exact H. Qed.

(** X2: whatever frames a track delivers - any element type, shape, rate,
    loudness - every sample that [_process_audio_track] stores in the
    rolling buffer and in the utterance buffer lies in [-32767, 32767]: the
    clip to [-1, 1] survives the resampling, so the conversion to int16
    never overflows. *)
Theorem audio_track_buffers_fit_int16
  (frame_count : nat) (track : list TrackItem) (a : VoiceAgent) :
  buffers_fit a ->
  buffers_fit (fst (_process_audio_track frame_count track a)).
Proof.
  revert frame_count a. induction track as [|x rest IH]; intros c a H.
  - exact H.
  - cbn [_process_audio_track fst]. apply IH.
    unfold on_frame.
    destruct (prepare_frame (S c) (item_frame x)) as [audio_data|] eqn:E.
    + apply process_frame_buffers_fit.
      * exact (prepare_frame_within _ _ _ E).
      * now apply with_state_buffers_fit.
    + cbn. now apply with_state_buffers_fit.
Qed.

Lemma mono_length_size (d : Dtype) (arr : NdArray) :
  0 < mono_length d arr -> 0 < ndarray_size arr.
Proof.
  unfold mono_length, to_mono, ndarray_size.
  destruct arr as [values | rows]; [easy|].
  destruct (1 <? length rows); [|easy]. cbn [snd].
  unfold mean_axis0. rewrite length_map, length_seq.
  destruct rows as [|row rest]; [easy|]. cbn [hd concat].
  rewrite length_app. lia.
Qed.

Lemma normalize_nonempty (d : Dtype) (a : list Q) :
  a <> [] -> exists b, normalize d a = Some b /\ length b = length a.
Proof.
  intros Hne. destruct a as [|x r]; [contradiction|].
  unfold normalize. destruct d.
  - eexists. split; [reflexivity | apply length_map].
  - eexists. split; reflexivity.
  - cbn [amax amin]. destruct (_ || _).
    + eexists. split; [reflexivity | apply length_map].
    + eexists. split; reflexivity.
Qed.

(** X3: a frame with at least one sample per channel and a positive
    sample rate is never skipped, whatever its element type, its number of
    channels, its rate and its position in the track; a frame received at
    16000 Hz is kept with all its [n] samples, a frame received at another
    rate is kept resampled. *)
Theorem prepare_frame_accepts
  (frame_count : nat) (d : Dtype) (arr : NdArray) (rate : Z) :
  0 < mono_length d arr -> (0 < rate)%Z ->
  exists audio_data,
    prepare_frame frame_count {| to_ndarray := Some (d, arr); frame_rate := rate |}
      = Some audio_data /\
    (rate = 16000%Z -> length audio_data = mono_length d arr) /\
    (rate <> 16000%Z ->
     exists normalized,
       length normalized = mono_length d arr /\
       _resample_audio normalized rate 16000 = Some audio_data).
Proof.
  intros Hn Hr. pose proof (mono_length_size d arr Hn) as Hs.
  unfold prepare_frame. cbn [to_ndarray frame_rate].
  replace (ndarray_size arr =? 0) with false by (symmetry; apply Nat.eqb_neq; lia).
  rewrite andb_false_r. unfold mono_length in *.
  destruct (to_mono d arr) as [d1 mono]. cbn [snd] in *.
  destruct (normalize_nonempty d1 mono) as [normalized [-> Hlen]].
  { destruct mono; [simpl in Hn; lia | discriminate]. }
  cbv zeta.
  assert (Hg : length (gain_clip normalized) = length mono).
  { unfold gain_clip. now rewrite length_map. }
  replace (length (gain_clip normalized) =? 0) with false
    by (symmetry; apply Nat.eqb_neq; lia).
  rewrite andb_false_r.
  destruct (rate =? 16000)%Z eqn:E; cbn [negb].
  - apply Z.eqb_eq in E. eexists. split; [reflexivity|].
    split; [intros _; exact Hg | intros H; contradiction].
  - apply Z.eqb_neq in E.
    pose proof (resample_audio_length (gain_clip normalized) rate 16000 Hr eq_refl E) as H.
    destruct (_resample_audio (gain_clip normalized) rate 16000) as [out|] eqn:Eo.
    + exists out. split; [reflexivity|].
      split; [intros H0; contradiction|]. intros _.
      exists (gain_clip normalized). split; [exact Hg | exact Eo].
    + rewrite H in Hg. simpl in Hg. lia.
Qed.

Lemma process_frame_audio_buffer (audio_data : list Q) (t : Q) (a : VoiceAgent) :
  audio_buffer (agent_after (process_frame audio_data t a)) =
  if flushed (trace (process_frame audio_data t a)) then []
  else audio_buffer a ++ [to_int16 audio_data].
Proof.
  rewrite process_frame_run. cbv zeta.
  destruct (AgentState_eqb (state a) SPEAKING); [reflexivity|].
  destruct (_detect_speech a audio_data).
  - destruct (is_speaking a); reflexivity.
  - destruct (is_speaking a); [|reflexivity].
    destruct (Qle_bool _ _); reflexivity.
Qed.

(** X4: the rolling buffer counts the frames since the last flush.  Over
    any stretch of a track in which no frame flushes, the buffer grows by
    exactly one entry for every frame that is not skipped: in every session
    state, Speaking included, and whatever the classification of the
    frame. *)
Theorem rolling_buffer_counts_frames
  (frame_count : nat) (track : list TrackItem) (a : VoiceAgent) :
  Forall (fun es => flushed es = false)
         (snd (_process_audio_track frame_count track a)) ->
  length (audio_buffer (fst (_process_audio_track frame_count track a))) =
  length (audio_buffer a) + accepted frame_count track.
Proof.
  revert frame_count a. induction track as [|x rest IH]; intros c a H.
  - simpl. lia.
  - cbn [_process_audio_track fst snd accepted] in *.
    inversion H as [|? ? Hx Hrest]; subst.
    rewrite (IH _ _ Hrest). unfold on_frame in *.
    destruct (prepare_frame (S c) (item_frame x)) as [audio_data|].
    + rewrite process_frame_audio_buffer, Hx, length_app. simpl. lia.
    + simpl. lia.
Qed.

(** A flush empties the rolling buffer and keeps the utterance. *)
Lemma flush_resets_rolling_buffer (audio_data : list Q) (t : Q) (a : VoiceAgent) :
  flushed (trace (process_frame audio_data t a)) = true ->
  audio_buffer (agent_after (process_frame audio_data t a)) = [] /\
  speech_buffer (agent_after (process_frame audio_data t a)) = speech_buffer a /\
  is_speaking (agent_after (process_frame audio_data t a)) = false.
Proof.
  rewrite process_frame_run. cbv zeta.
  destruct (AgentState_eqb (state a) SPEAKING); [discriminate|].
  destruct (_detect_speech a audio_data).
  - destruct (is_speaking a); discriminate.
  - destruct (is_speaking a); [|discriminate].
    destruct (Qle_bool _ _); [|discriminate]. repeat split.
Qed.

(** One speech frame, by the mode the loop is in. *)
Lemma deliver_speech_buffer (x : Arrival) (a : VoiceAgent) :
  seen_state x <> SPEAKING ->
  _detect_speech a (samples x) = true ->
  speech_buffer (fst (deliver x a)) =
    (if is_speaking a then speech_buffer a else []) ++ [to_int16 (samples x)] /\
  is_speaking (fst (deliver x a)) = true /\
  config (fst (deliver x a)) = config a.
Proof.
  intros Hs Hd. unfold deliver. rewrite process_frame_run. cbv zeta.
  cbn [state with_state fst]. apply AgentState_eqb_neq in Hs. rewrite Hs.
  rewrite (detect_speech_self _ a), Hd. cbn [is_speaking with_state].
  destruct (is_speaking a) eqn:E; repeat split; exact E.
Qed.

Lemma deliver_all_speech_buffer (xs : list Arrival) (a : VoiceAgent) :
  is_speaking a = true ->
  Forall (fun x => seen_state x <> SPEAKING /\ _detect_speech a (samples x) = true) xs ->
  speech_buffer (fst (deliver_all xs a)) =
    speech_buffer a ++ map (fun x => to_int16 (samples x)) xs /\
  is_speaking (fst (deliver_all xs a)) = true.
Proof.
  revert a. induction xs as [|x xs IH]; intros a Ha H.
  - simpl. now rewrite app_nil_r.
  - inversion H as [|? ? [Hs Hd] Hrest]; subst.
    destruct (deliver_speech_buffer x a Hs Hd) as [B [S C]].
    rewrite deliver_all_cons. cbn [fst map].
    destruct (IH (fst (deliver x a)) S Hrest) as [IH1 IH2].
    rewrite IH1, B, Ha, <- app_assoc. now split.
Qed.

Lemma deliver_all_speech_no_events (xs : list Arrival) (a b : VoiceAgent) :
  Forall (fun x => seen_state x <> SPEAKING /\ _detect_speech b (samples x) = true) xs ->
  Forall (fun es => es = []) (snd (deliver_all xs a)).
Proof.
  revert a. induction xs as [|x xs IH]; intros a H; [constructor|].
  inversion H as [|? ? [Hs Hd] Hrest]; subst.
  rewrite deliver_all_cons. cbn [snd].
  constructor; [exact (proj1 (deliver_speech x a Hs Hd)) | now apply IH].
Qed.

(** X5: the utterance buffer holds exactly the speech run.  When the loop
    is not in speech mode and a run of frames classified as speech arrives
    with the rule not suspended, the first frame marks the speech start and
    resets the buffer once; afterwards the buffer is the run, frame by
    frame in arrival order, whatever it held before. *)
Theorem utterance_is_speech_run (x : Arrival) (xs : list Arrival) (a : VoiceAgent) :
  is_speaking a = false ->
  Forall (fun y => seen_state y <> SPEAKING /\ _detect_speech a (samples y) = true)
         (x :: xs) ->
  speech_buffer (fst (deliver_all (x :: xs) a)) =
    map (fun y => to_int16 (samples y)) (x :: xs) /\
  is_speaking (fst (deliver_all (x :: xs) a)) = true /\
  Forall (fun es => es = []) (snd (deliver_all (x :: xs) a)).
Proof.
  intros Ha H. split; [|split].
  - inversion H as [|? ? [Hs Hd] Hrest]; subst.
    destruct (deliver_speech_buffer x a Hs Hd) as [B [S C]].
    rewrite Ha in B. cbn [app] in B.
    destruct (deliver_all_speech_buffer xs (fst (deliver x a)) S Hrest) as [B2 S2].
    rewrite deliver_all_cons. cbn [fst map]. now rewrite B2, B.
  - inversion H as [|? ? [Hs Hd] Hrest]; subst.
    destruct (deliver_speech_buffer x a Hs Hd) as [B [S C]].
    rewrite deliver_all_cons. cbn [fst].
    exact (proj2 (deliver_all_speech_buffer xs (fst (deliver x a)) S Hrest)).
  - exact (deliver_all_speech_no_events (x :: xs) a a H).
Qed.

Lemma deliver_silence_early_buffer (x : Arrival) (a : VoiceAgent) (since : Q) :
  listening (config a) since a ->
  _detect_speech a (samples x) = false ->
  (at_time x - since < silence_duration (config a))%Q ->
  speech_buffer (fst (deliver x a)) = speech_buffer a.
Proof.
  intros [_ [Hl [Ht Hb]]] Hd Hlt. unfold deliver. rewrite process_frame_run. cbv zeta.
  cbn [state with_state is_speaking config last_speech_time fst].
  rewrite (detect_speech_self _ a), Hd, Hl, Ht.
  destruct (AgentState_eqb (seen_state x) SPEAKING); [reflexivity|].
  destruct (Qle_bool (silence_duration (config a)) (at_time x - since)) eqn:E;
    [|reflexivity].
  apply Qle_bool_iff in E. exfalso. exact (Qlt_not_le _ _ Hlt E).
Qed.

Lemma deliver_all_early_buffer (xs : list Arrival) (a : VoiceAgent) (since : Q) :
  listening (config a) since a ->
  Forall (fun y => _detect_speech a (samples y) = false /\
                   (at_time y - since < silence_duration (config a))%Q) xs ->
  speech_buffer (fst (deliver_all xs a)) = speech_buffer a /\
  Forall (fun es => es = []) (snd (deliver_all xs a)).
Proof.
  revert a. induction xs as [|y ys IH]; intros a Hl H.
  - split; [reflexivity | constructor].
  - inversion H as [|? ? [Hd Hlt] Hrest]; subst.
    destruct (deliver_silence_early y a since Hl Hd Hlt) as [He Hl1].
    pose proof (deliver_silence_early_buffer y a since Hl Hd Hlt) as Hb.
    assert (Hc : config (fst (deliver y a)) = config a) by apply Hl1.
    rewrite deliver_all_cons. cbn [fst snd].
    specialize (IH (fst (deliver y a))). rewrite Hc in IH.
    destruct (IH Hl1 Hrest) as [IH1 IH2].
    rewrite IH1, Hb. split; [reflexivity | now constructor].
Qed.

(** X6: brief pauses are tolerated.  In speech mode, silent frames that
    arrive before the silence has lasted [silence_duration] change nothing
    about the utterance: when speech resumes, the frame is appended to the
    same utterance buffer (no new speech start, no reset), nothing was
    flushed in between, and the silence clock restarts at the new frame. *)
Theorem brief_pause_keeps_utterance
  (a : VoiceAgent) (since : Q) (pauses : list Arrival) (x : Arrival) :
  listening (config a) since a ->
  Forall (fun y => _detect_speech a (samples y) = false /\
                   (at_time y - since < silence_duration (config a))%Q) pauses ->
  seen_state x <> SPEAKING ->
  _detect_speech a (samples x) = true ->
  speech_buffer (fst (deliver_all (pauses ++ [x]) a)) =
    speech_buffer a ++ [to_int16 (samples x)] /\
  Forall (fun es => es = []) (snd (deliver_all (pauses ++ [x]) a)) /\
  last_speech_time (fst (deliver_all (pauses ++ [x]) a)) = at_time x.
Proof.
  intros Hl Hp Hs Hd.
  destruct (deliver_all_early pauses a since Hl Hp) as [_ L1].
  destruct (deliver_all_early_buffer pauses a since Hl Hp) as [B1 E1].
  set (a1 := fst (deliver_all pauses a)) in *.
  destruct (deliver_speech_buffer x a1 Hs Hd) as [B2 _].
  destruct (deliver_speech x a1 Hs Hd) as [E2 [_ [_ [T2 _]]]].
  assert (S1 : is_speaking a1 = true) by apply L1.
  rewrite S1, B1 in B2.
  rewrite (deliver_all_app pauses [x]). cbn [fst snd]. fold a1.
  rewrite deliver_all_cons. cbn [deliver_all fst snd].
  split; [exact B2|]. split; [|exact T2].
  apply Forall_app. split; [exact E1 | now repeat constructor].
Qed.

(* ================================================================== *)
(** * Resampling: what one call returns                                *)
(* ================================================================== *)

Lemma nth_pred_last (l : list Q) : nth (length l - 1) l 0%Q = last l 0%Q.
Proof.
  induction l as [|x [|y r] IH]; [reflexivity | reflexivity |].
  change (last (x :: y :: r) 0%Q) with (last (y :: r) 0%Q). rewrite <- IH.
  simpl. now rewrite Nat.sub_0_r.
Qed.

Lemma interp_at_first (fp : list Q) (x : Q) :
  fp <> [] -> (x == 0)%Q -> np.interp_at fp x = hd 0%Q fp.
Proof.
  intros Hne Hx. unfold np.interp_at. cbv zeta.
  destruct fp as [|s r]; [contradiction|].
  destruct (Qle_bool (inject_Z (Z.of_nat (length (s :: r) - 1))) x) eqn:E1.
  - apply Qle_bool_iff in E1. rewrite Hx in E1.
    assert (Hz : (Z.of_nat (length (s :: r) - 1) <= 0)%Z).
    { rewrite Zle_Qle. exact E1. }
    replace (length (s :: r) - 1) with 0 by lia. reflexivity.
  - replace (Qle_bool x 0) with true; [reflexivity|].
    symmetry. apply Qle_bool_iff. rewrite Hx. apply Qle_refl.
Qed.

Lemma interp_at_last (fp : list Q) (x : Q) :
  fp <> [] -> (x == inject_Z (Z.of_nat (length fp)) - 1)%Q ->
  np.interp_at fp x = last fp 0%Q.
Proof.
  intros Hne Hx. unfold np.interp_at. cbv zeta.
  replace (Qle_bool (inject_Z (Z.of_nat (length fp - 1))) x) with true.
  - apply nth_pred_last.
  - symmetry. apply Qle_bool_iff. rewrite Hx.
    destruct fp as [|s r]; [contradiction|].
    replace (Z.of_nat (length (s :: r) - 1)) with (Z.of_nat (length (s :: r)) - 1)%Z
      by (simpl length; lia).
    unfold Zminus. rewrite inject_Z_plus. apply Qle_refl.
Qed.

Lemma linspace_endpoints (start stop : Q) (num : Z) (l : list Q) :
  np.linspace start stop num = Some l -> l <> [] ->
  (hd 0%Q l == start)%Q /\ (2 <= length l -> (last l 0%Q == stop)%Q).
Proof.
  unfold np.linspace. destruct (num <? 0)%Z; [discriminate|].
  destruct (Z.to_nat num) as [|[|k]]; intros H Hne;
    apply (f_equal (fun o => match o with Some x => x | None => [] end)) in H;
    cbv beta iota in H; subst l.
  - contradiction.
  - split; [reflexivity | simpl; lia].
  - split.
    + cbn [seq map hd]. change (inject_Z (Z.of_nat 0)) with 0%Q. ring.
    + intros _. rewrite seq_S, map_app. cbn [map]. rewrite last_last.
      cbn [Nat.add]. field.
      intros H. apply (inject_Z_injective (Z.of_nat (S k)) 0) in H. lia.
Qed.

Lemma hd_map_nonempty (f : Q -> Q) (l : list Q) :
  l <> [] -> hd 0%Q (map f l) = f (hd 0%Q l).
Proof. destruct l; [contradiction | reflexivity]. Qed.

Lemma last_map_nonempty (f : Q -> Q) (l : list Q) :
  l <> [] -> last (map f l) 0%Q = f (last l 0%Q).
Proof.
  induction l as [|x [|y r] IH]; [contradiction | reflexivity |].
  intros _. change (map f (x :: y :: r)) with (f x :: map f (y :: r)).
  change (last (x :: y :: r) 0%Q) with (last (y :: r) 0%Q).
  rewrite <- IH by discriminate. reflexivity.
Qed.

(** X7: resampling keeps the ends of the signal.  Whenever a call returns
    a non-empty array its first sample is the first sample of the input,
    and when it returns two samples or more its last sample is the last
    sample of the input. *)
Theorem resample_keeps_endpoints (audio out : list Q) (orig_sr target_sr : Z) :
  _resample_audio audio orig_sr target_sr = Some out ->
  out <> [] ->
  hd 0%Q out = hd 0%Q audio /\
  (2 <= length out -> last out 0%Q = last audio 0%Q).
Proof.
  unfold _resample_audio.
  destruct (orig_sr =? target_sr)%Z; [intros [= <-]; now split|].
  destruct (orig_sr =? 0)%Z; [discriminate|]. cbv zeta.
  destruct (np.linspace _ _ _) as [indices|] eqn:El; [|discriminate].
  unfold np.interp. destruct audio as [|s rest] eqn:Ea; [discriminate|].
  rewrite <- Ea in *. assert (Hne : audio <> []) by (rewrite Ea; discriminate).
  clear Ea s rest.
  intros H Hout.
  apply (f_equal (fun o => match o with Some x => x | None => [] end)) in H.
  cbv beta iota in H. subst out.
  assert (Hi : indices <> []) by (destruct indices; [contradiction | discriminate]).
  destruct (linspace_endpoints _ _ _ _ El Hi) as [H1 H2].
  split.
  - rewrite hd_map_nonempty by exact Hi. now apply interp_at_first.
  - intros Hlen. rewrite length_map in Hlen.
    rewrite last_map_nonempty by exact Hi.
    apply interp_at_last; [exact Hne | now apply H2].
Qed.


Lemma boosted_sample (z : Z) :
  py_int (clip1 (-1) 1 (inject_Z z / 32768 * 3) * 32767) = boosted z.
Proof.
  set (x := (inject_Z z / 32768 * 3)%Q).
  assert (E1 : Qle_bool x (-1) = (3 * z <=? -32768)%Z).
  { unfold x, Qle_bool, Qdiv, Qmult, Qinv, inject_Z. cbn [Qnum Qden].
    change (Z.pos (1 * 32768 * 1)) with 32768%Z. f_equal; lia. }
  assert (E2 : Qle_bool 1 x = (32768 <=? 3 * z)%Z).
  { unfold x, Qle_bool, Qdiv, Qmult, Qinv, inject_Z. cbn [Qnum Qden].
    change (Z.pos (1 * 32768 * 1)) with 32768%Z. f_equal; lia. }
  unfold boosted, clip1. rewrite E1.
  destruct (Z.leb_spec (3 * z) (-32768)) as [Hlo|Hlo].
  - replace (32768 <=? 3 * z)%Z with false by (symmetry; apply Z.leb_gt; lia).
    reflexivity.
  - rewrite E2. destruct (Z.leb_spec 32768 (3 * z)) as [Hhi|Hhi]; [reflexivity|].
    unfold x, py_int, Qdiv, Qmult, Qinv, inject_Z. cbn [Qnum Qden].
    change (Z.pos (1 * 32768 * 1 * 1)) with 32768%Z. f_equal. lia.
Qed.

(** X9: the int16 path in integers.  A non-empty mono int16 frame
    received at 16 kHz is stored sample by sample as [boosted]: three times
    the sample, saturated at +-32767 from one third of full scale on
    (|3 z| >= 32768), and otherwise [3 z * 32767 / 32768] truncated toward
    zero. *)
Theorem int16_frame_is_boosted (frame_count : nat) (zs : list Z) :
  zs <> [] ->
  exists audio_data,
    prepare_frame frame_count
      {| to_ndarray := Some (int16, Arr2 [map inject_Z zs]); frame_rate := 16000 |}
      = Some audio_data /\
    to_int16 audio_data = map boosted zs.
Proof.
  intros Hne. unfold prepare_frame. cbn [to_ndarray frame_rate ndarray_size concat].
  rewrite app_nil_r, length_map.
  replace (length zs =? 0) with false
    by (symmetry; apply Nat.eqb_neq; destruct zs; [contradiction | discriminate]).
  rewrite andb_false_r. cbn [to_mono length Nat.ltb Nat.leb concat normalize].
  rewrite app_nil_r. cbv zeta.
  unfold gain_clip at 1. rewrite !length_map.
  replace (length zs =? 0) with false
    by (symmetry; apply Nat.eqb_neq; destruct zs; [contradiction | discriminate]).
  rewrite andb_false_r. cbn [Z.eqb Pos.eqb negb].
  eexists. split; [reflexivity|].
  unfold to_int16, gain_clip. rewrite !map_map.
  apply map_ext. intros z. apply boosted_sample.
Qed.

Lemma process_frame_utterance (audio_data : list Q) (t : Q) (a : VoiceAgent) :
  utterance_ready a ->
  let r := process_frame audio_data t a in
  utterance_ready (agent_after r) /\
  (In PipelineSpawned (trace r) ->
   speech_buffer (agent_after r) = speech_buffer a /\
   speech_buffer (agent_after r) <> []).
Proof.
  intros H. cbv zeta. rewrite process_frame_run. cbv zeta.
  unfold utterance_ready in *.
  destruct (AgentState_eqb (state a) SPEAKING).
  { cbn. split; [exact H | intros []]. }
  destruct (_detect_speech a audio_data).
  { split; [|intros []].
    destruct (is_speaking a); cbn; intros _;
      first [discriminate | apply not_eq_sym, app_cons_not_nil]. }
  destruct (is_speaking a) eqn:E.
  - destruct (Qle_bool _ _); cbn.
    + split; [discriminate|]. intros _. split; [reflexivity | now apply H].
    + split; [rewrite E; exact H | intros []].
  - cbn. split; [rewrite E; exact H | intros []].
Qed.

Lemma on_frame_utterance
  (frame_count : nat) (frame : AudioFrame) (t : Q) (a : VoiceAgent) :
  utterance_ready a ->
  let r := on_frame frame_count frame t a in
  utterance_ready (agent_after r) /\
  (In PipelineSpawned (trace r) -> speech_buffer (agent_after r) <> []).
Proof.
  intros H. cbv zeta. unfold on_frame.
  destruct (prepare_frame frame_count frame) as [audio_data|].
  - destruct (process_frame_utterance audio_data t a H) as [H1 H2].
    split; [exact H1 | intros Hin; now apply H2].
  - cbn. split; [exact H | intros []].
Qed.

(** X10: the pipeline is never started on nothing.  Over any track, from
    an agent that is not in the middle of an empty utterance (a fresh agent
    is not), whenever the loop starts the pipeline at a frame, the utterance
    buffer that it leaves for the pipeline at that frame is not empty; so
    the empty-buffer guard of [_process_speech] is dead for a pipeline that
    runs before the next frame. *)
Theorem pipeline_started_with_utterance
  (frame_count : nat) (track : list TrackItem) (a : VoiceAgent) (k : nat) :
  utterance_ready a ->
  In PipelineSpawned (nth k (snd (_process_audio_track frame_count track a)) []) ->
  speech_buffer
    (fst (_process_audio_track frame_count (firstn (S k) track) a)) <> [].
Proof.
  revert frame_count a k. induction track as [|x rest IH]; intros c a k H Hin.
  - cbn in Hin. now destruct k.
  - cbn [_process_audio_track fst snd] in Hin.
    cbn [firstn _process_audio_track fst].
    destruct (on_frame_utterance (S c) (item_frame x) (item_time x)
                (with_state (item_state x) a) H) as [H1 H2].
    destruct k as [|k].
    + cbn [nth] in Hin. cbn [firstn _process_audio_track fst]. now apply H2.
    + cbn [nth] in Hin. now apply IH.
Qed.

(** ** The audio theorems at work *)

(** X2 at work: a loud frame, then a silent one, into a fresh agent. *)
Lemma audio_track_buffers_fit_int16_witness :
  buffers_fit (fst (_process_audio_track 0 example_track fresh_agent)).
Proof.
  apply (audio_track_buffers_fit_int16 0 example_track fresh_agent).
  split; constructor.
Defined.

(** X3 at work: six samples at 48 kHz are kept, resampled. *)
Lemma prepare_frame_accepts_witness :
  exists audio_data,
    prepare_frame 7 {| to_ndarray := Some (float32, Arr1 (ramp 6)); frame_rate := 48000 |}
      = Some audio_data /\
    (48000%Z = 16000%Z -> length audio_data = mono_length float32 (Arr1 (ramp 6))) /\
    (48000%Z <> 16000%Z ->
     exists normalized,
       length normalized = mono_length float32 (Arr1 (ramp 6)) /\
       _resample_audio normalized 48000 16000 = Some audio_data).
Proof.
  apply (prepare_frame_accepts 7 float32 (Arr1 (ramp 6)) 48000).
  - cbn. lia.
  - lia.
Defined.

(** X1 at work: two samples in [0, 1], from 1 Hz to 2 Hz. *)
Lemma resample_audio_within_witness :
  within 0 1 (match _resample_audio (ramp 2) 1 2 with
              | Some out => out
              | None => []
              end).
Proof.
  apply (resample_audio_within 0 1 (ramp 2) _ 1 2).
  - repeat constructor; cbn; unfold Qle; cbn; lia.
  - reflexivity.
Defined.

(** X7 at work: the same resampling keeps 0 in front and 1 at the end. *)
Lemma resample_keeps_endpoints_witness :
  let out := match _resample_audio (ramp 2) 1 2 with
             | Some out => out
             | None => []
             end in
  hd 0%Q out = hd 0%Q (ramp 2) /\
  (2 <= length out -> last out 0%Q = last (ramp 2) 0%Q).
Proof.
  apply (resample_keeps_endpoints (ramp 2) _ 1 2).
  - reflexivity.
  - discriminate.
Defined.


(** X4 at work: two frames, the second while the agent speaks. *)
Lemma rolling_buffer_counts_frames_witness :
  length (audio_buffer (fst (_process_audio_track 0 speech_track fresh_agent))) =
  length (audio_buffer fresh_agent) + accepted 0 speech_track.
Proof.
  apply (rolling_buffer_counts_frames 0 speech_track fresh_agent).
  repeat constructor.
Defined.

(** X5 at work: two loud frames into a fresh agent. *)
Lemma utterance_is_speech_run_witness :
  speech_buffer (fst (deliver_all [loud 0; loud 1] fresh_agent)) =
    map (fun y => to_int16 (samples y)) [loud 0; loud 1] /\
  is_speaking (fst (deliver_all [loud 0; loud 1] fresh_agent)) = true /\
  Forall (fun es => es = []) (snd (deliver_all [loud 0; loud 1] fresh_agent)).
Proof.
  apply (utterance_is_speech_run (loud 0) [loud 1] fresh_agent).
  - reflexivity.
  - repeat constructor; discriminate.
Defined.

(** X6 at work: speech at 0 s, a silent frame at 1 s, speech again at
    1.25 s, with the default [silence_duration] of 1.5 s. *)
Lemma brief_pause_keeps_utterance_witness :
  let a := fst (deliver_all [loud 0] fresh_agent) in
  speech_buffer (fst (deliver_all ([silent CONNECTED 1] ++ [loud (5 # 4)]) a)) =
    speech_buffer a ++ [to_int16 (samples (loud (5 # 4)))] /\
  Forall (fun es => es = [])
         (snd (deliver_all ([silent CONNECTED 1] ++ [loud (5 # 4)]) a)) /\
  last_speech_time (fst (deliver_all ([silent CONNECTED 1] ++ [loud (5 # 4)]) a)) =
    at_time (loud (5 # 4)).
Proof.
  apply (brief_pause_keeps_utterance
           (fst (deliver_all [loud 0] fresh_agent)) 0
           [silent CONNECTED 1] (loud (5 # 4))).
  - repeat split. discriminate.
  - repeat constructor.
  - discriminate.
  - reflexivity.
Defined.

(** X9 at work: a quiet sample and one above a third of full scale. *)
Lemma int16_frame_is_boosted_witness :
  exists audio_data,
    prepare_frame 0
      {| to_ndarray := Some (int16, Arr2 [map inject_Z [100; -20000]%Z]);
         frame_rate := 16000 |}
      = Some audio_data /\
    to_int16 audio_data = map boosted [100; -20000]%Z.
Proof.
  apply (int16_frame_is_boosted 0 [100; -20000]%Z). discriminate.
Defined.

(** X10 at work: the silent frame of [example_track] starts the pipeline
    on the utterance of the loud frame. *)
Lemma pipeline_started_with_utterance_witness :
  speech_buffer (fst (_process_audio_track 0 (firstn 2 example_track) fresh_agent))
  <> [].
Proof.
  apply (pipeline_started_with_utterance 0 example_track fresh_agent 1).
  - discriminate.
  - left. reflexivity.
Defined.

(* ================================================================== *)
(** * Transcription: the transcript is trimmed                         *)
(* ================================================================== *)

Lemma lstrip_chars_no_leading (s : list ascii) : no_leading_space (lstrip_chars s).
Proof.
  induction s as [|c r IH]; [exact I|].
  simpl. destruct (py_isspace c) eqn:E; [exact IH | exact E].
Qed.

Lemma lstrip_chars_fixed (s : list ascii) :
  no_leading_space s -> lstrip_chars s = s.
Proof. destruct s as [|c r]; [reflexivity|]. simpl. now intros ->. Qed.

Lemma lstrip_chars_keeps_last (s : list ascii) (c : ascii) :
  py_isspace c = false -> exists t, lstrip_chars (s ++ [c]) = t ++ [c].
Proof.
  intros Hc. induction s as [|d r IH].
  - exists []. simpl. now rewrite Hc.
  - simpl. destruct (py_isspace d); [exact IH|]. now exists (d :: r).
Qed.

(** The characters of a stripped string have no white space at either
    end. *)
Lemma strip_chars_ends (s : list ascii) :
  let t := rev (lstrip_chars (rev (lstrip_chars s))) in
  no_leading_space t /\ no_leading_space (rev t).
Proof.
  cbv zeta. split.
  - pose proof (lstrip_chars_no_leading s) as H.
    destruct (lstrip_chars s) as [|c r]; [exact I|].
    simpl in H. simpl rev at 2.
    destruct (lstrip_chars_keeps_last (rev r) c H) as [t ->].
    rewrite rev_app_distr. exact H.
  - rewrite rev_involutive. apply lstrip_chars_no_leading.
Qed.

Lemma strip_idempotent (s : string) : strip (strip s) = strip s.
Proof.
  unfold strip. rewrite list_ascii_of_string_of_list_ascii.
  destruct (strip_chars_ends (list_ascii_of_string s)) as [H1 H2].
  cbv zeta in H1, H2.
  set (t := rev (lstrip_chars (rev (lstrip_chars (list_ascii_of_string s))))) in *.
  rewrite (lstrip_chars_fixed t H1), (lstrip_chars_fixed (rev t) H2).
  now rewrite rev_involutive.
Qed.

Section Transcript.

Variable env : Collaborators.

(** X11: the transcript that [_transcribe_audio] returns never starts or
    ends with white space, whatever the recognition model returns (and it
    is empty when the model fails); stripping it again, as
    [_process_speech] does before its blank test, changes nothing. *)
Theorem transcript_is_trimmed (audio_data : list Z) (a : VoiceAgent) :
  let transcript := result (_transcribe_audio env audio_data a) in
  no_leading_space (list_ascii_of_string transcript) /\
  no_leading_space (rev (list_ascii_of_string transcript)) /\
  strip transcript = transcript.
Proof.
  cbv zeta. rewrite transcribe_audio_run. cbn [result fst].
  unfold transcript_of.
  destruct (audio_float_of audio_data) as [|x l]; [repeat split|].
  destruct (stt_transcribe env (x :: l)) as [parts|]; [|repeat split].
  split; [|split].
  - unfold strip. rewrite list_ascii_of_string_of_list_ascii.
    apply strip_chars_ends.
  - unfold strip. rewrite list_ascii_of_string_of_list_ascii.
    apply strip_chars_ends.
  - apply strip_idempotent.
Qed.

End Transcript.

(* ================================================================== *)
(** * Conversation pipeline: the other ways a turn can go              *)
(* ================================================================== *)

Lemma set_state_announced (s : AgentState) (a : VoiceAgent) :
  announced (trace (_set_state s a)) =
  if AgentState_eqb (state a) s then []
  else if on_state_change a then [s] else [].
Proof.
  rewrite set_state_run.
  destruct (AgentState_eqb (state a) s); [reflexivity|].
  destruct (on_state_change a); reflexivity.
Qed.

Lemma set_state_observer (s : AgentState) (a : VoiceAgent) :
  on_state_change (agent_after (_set_state s a)) = on_state_change a.
Proof. rewrite set_state_run. destruct (AgentState_eqb (state a) s); reflexivity. Qed.

Section MoreTurns.

Variable env : Collaborators.

Lemma get_llm_response_trace (text : string) (a : VoiceAgent) :
  trace (_get_llm_response env text a) =
  [LlmCall (llm_model (config a)) (llm_request a text)].
Proof.
  rewrite get_llm_response_run. cbv zeta.
  destruct (llm_create env _ _); reflexivity.
Qed.

Lemma get_llm_response_keeps (text : string) (a : VoiceAgent) :
  let a' := agent_after (_get_llm_response env text a) in
  state a' = state a /\ config a' = config a /\
  on_state_change a' = on_state_change a.
Proof.
  cbv zeta. rewrite get_llm_response_run. cbv zeta.
  destruct (llm_create env _ _); repeat split.
Qed.

(** X12: the shape of the generation request.  Every call of
    [_get_llm_response] makes exactly one request, whatever its outcome;
    the request starts with the system message carrying the configured
    instructions, continues with at most ten turns of history, and ends
    with the user turn of the transcript just heard; the turns are the most
    recent ones: what is dropped is dropped from the front. *)
Theorem llm_request_shape (text : string) (a : VoiceAgent) :
  let h := conversation_history a in
  exists sent,
    trace (_get_llm_response env text a) =
      [LlmCall (llm_model (config a))
         ({| role := system; content := Some (llm_instructions (config a)) |} :: sent)] /\
    length sent <= 10 /\
    last sent (user_turn text) = user_turn text /\
    exists dropped,
      h ++ [user_turn text] = dropped ++ sent /\
      length dropped = length h + 1 - 10.
Proof.
  cbv zeta. exists (history_with_user_turn (conversation_history a) text).
  split; [apply get_llm_response_trace|].
  split; [rewrite history_with_user_turn_length; lia|].
  split.
  - destruct (history_with_user_turn_last (conversation_history a) text) as [f ->].
    apply last_last.
  - unfold history_with_user_turn. cbv zeta.
    set (h1 := conversation_history a ++ [user_turn text]).
    assert (Hl : length h1 = length (conversation_history a) + 1).
    { unfold h1. rewrite length_app. reflexivity. }
    destruct (10 <? length h1) eqn:E.
    + exists (firstn (length h1 - 10) h1). split.
      * unfold last_n. symmetry. apply firstn_skipn.
      * rewrite length_firstn. lia.
    + apply Nat.ltb_ge in E. exists []. split; [reflexivity | simpl; lia].
Qed.

Lemma outbound_frames_audio (cfg : AgentConfig) (text : string) :
  Forall (fun e => is_audio_sent e = true) (outbound_frames env cfg text).
Proof.
  unfold outbound_frames.
  destruct (tts_create env _ text) as [pcm|]; [|constructor]. cbv zeta.
  destruct (if negb _ then _ else _); [|constructor].
  destruct (_ =? 0)%Z; [constructor|]. destruct (_ <? 0)%Z; [constructor|].
  apply Forall_forall. intros e He. apply in_map_iff in He.
  destruct He as [c [<- _]]. reflexivity.
Qed.

Lemma announced_outbound_frames (cfg : AgentConfig) (text : string) :
  announced (outbound_frames env cfg text) = [].
Proof.
  pose proof (outbound_frames_audio cfg text) as H.
  induction H as [|e es He _ IH]; [reflexivity|].
  destruct e; try discriminate. exact IH.
Qed.

(** X13: a turn that succeeds.  With a transcript that is not blank and a
    generation call that returns a text, the pipeline makes one generation
    call and one synthesis call, the synthesis input and the response
    notification are that text, the history ends with the user turn and the
    assistant turn, the session state ends at Connected, and an observer of
    an agent that was Connected is told Processing, Speaking, Connected in
    this order. *)
Theorem successful_turn (a : VoiceAgent) (reply : string) :
  let transcript := transcript_of env (concat (speech_buffer a)) in
  speech_buffer a <> [] ->
  str_is_empty (strip transcript) = false ->
  llm_create env (llm_model (config a)) (llm_request a transcript) = Some (Some reply) ->
  let r := _process_speech env a in
  filter is_llm_call (trace r) =
    [LlmCall (llm_model (config a)) (llm_request a transcript)] /\
  filter is_tts_call (trace r) = [TtsCall (tts_voice (config a)) reply] /\
  filter is_response (trace r) =
    (if on_response a then [ResponseNotified reply] else []) /\
  conversation_history (agent_after r) =
    history_with_user_turn (conversation_history a) transcript
    ++ [assistant_turn (Some reply)] /\
  state (agent_after r) = CONNECTED /\
  (state a = CONNECTED -> on_state_change a = true ->
   announced (trace r) = [PROCESSING; SPEAKING; CONNECTED]).
Proof.
  intros transcript Hne Hnb Hok. cbv zeta.
  set (a1 := agent_after (_set_state PROCESSING a)).
  assert (Hg : _get_llm_response env transcript a1
               = (Some reply,
                  with_conversation_history
                    (history_with_user_turn (conversation_history a) transcript
                     ++ [assistant_turn (Some reply)]) a1,
                  [LlmCall (llm_model (config a)) (llm_request a transcript)])).
  { rewrite get_llm_response_run. cbv zeta. unfold a1.
    rewrite llm_request_after_set_state, set_state_config, set_state_history.
    now rewrite Hok. }
  pose proof (process_speech_run env a Hne) as Hrun. cbv zeta in Hrun.
  fold transcript a1 in Hrun. rewrite Hnb, Hg in Hrun.
  cbn [result agent_after trace fst snd] in Hrun.
  rewrite synthesize_and_send_run in Hrun.
  cbn [agent_after trace fst snd config with_conversation_history] in Hrun.
  rewrite Hrun. cbn [agent_after trace fst snd].
  assert (Hc1 : config a1 = config a) by apply set_state_config.
  rewrite Hc1.
  repeat split.
  - rewrite !filter_app, filter_turn_prefix, !filter_set_state_trace,
      filter_outbound_frames by reflexivity.
    destruct (on_response a); reflexivity.
  - rewrite !filter_app, filter_turn_prefix, !filter_set_state_trace,
      filter_outbound_frames by reflexivity.
    destruct (on_response a); reflexivity.
  - rewrite !filter_app, filter_turn_prefix, !filter_set_state_trace,
      filter_outbound_frames by reflexivity.
    destruct (on_response a); reflexivity.
  - rewrite !set_state_history. reflexivity.
  - apply set_state_state.
  - intros Hs Ho.
    rewrite !announced_app, announced_turn_prefix, !set_state_announced.
    rewrite set_state_state, set_state_observer. cbn [state on_state_change with_conversation_history].
    unfold a1. rewrite set_state_state, set_state_observer, Hs, Ho.
    rewrite announced_outbound_frames. destruct (on_response a); reflexivity.
Qed.

End MoreTurns.

Section FailingTurns.

Variable env : Collaborators.

(** X14: a generation answer without content.  When the service answers
    but leaves the content empty ([None]), the pipeline makes no synthesis
    call, notifies no response and sends no audio; the history still
    records the user turn and an assistant turn without content; the turn
    ends at Connected. *)
Theorem reply_without_content (a : VoiceAgent) :
  let transcript := transcript_of env (concat (speech_buffer a)) in
  speech_buffer a <> [] ->
  str_is_empty (strip transcript) = false ->
  llm_create env (llm_model (config a)) (llm_request a transcript) = Some None ->
  let r := _process_speech env a in
  filter is_tts_call (trace r) = [] /\
  filter is_response (trace r) = [] /\
  filter is_audio_sent (trace r) = [] /\
  conversation_history (agent_after r) =
    history_with_user_turn (conversation_history a) transcript
    ++ [assistant_turn None] /\
  state (agent_after r) = CONNECTED.
Proof.
  intros transcript Hne Hnb Hok. cbv zeta.
  set (a1 := agent_after (_set_state PROCESSING a)).
  assert (Hg : _get_llm_response env transcript a1
               = (None,
                  with_conversation_history
                    (history_with_user_turn (conversation_history a) transcript
                     ++ [assistant_turn None]) a1,
                  [LlmCall (llm_model (config a)) (llm_request a transcript)])).
  { rewrite get_llm_response_run. cbv zeta. unfold a1.
    rewrite llm_request_after_set_state, set_state_config, set_state_history.
    now rewrite Hok. }
  pose proof (process_speech_run env a Hne) as Hrun. cbv zeta in Hrun.
  fold transcript a1 in Hrun. rewrite Hnb, Hg in Hrun.
  cbn [result agent_after trace fst snd] in Hrun.
  rewrite Hrun. cbn [agent_after trace fst snd].
  repeat split;
    try (rewrite !filter_app, filter_turn_prefix, !filter_set_state_trace
           by reflexivity; reflexivity).
  - now rewrite set_state_history.
  - apply set_state_state.
Qed.

(** X15: a synthesis step that fails ends silently.  When the synthesis
    call fails, [_synthesize_and_send] hands no frame to the outbound
    track and still leaves the session state at Connected; an observer of
    an agent that was Processing is told Speaking and then Connected. *)
Theorem synthesis_failure_is_silent (text : string) (a : VoiceAgent) :
  tts_create env (tts_voice (config a)) text = None ->
  let r := _synthesize_and_send env text a in
  filter is_audio_sent (trace r) = [] /\
  filter is_tts_call (trace r) = [TtsCall (tts_voice (config a)) text] /\
  state (agent_after r) = CONNECTED /\
  (state a = PROCESSING -> on_state_change a = true ->
   announced (trace r) = [SPEAKING; CONNECTED]).
Proof.
  intros Hfail. cbv zeta. rewrite synthesize_and_send_run.
  cbn [agent_after trace fst snd].
  assert (Ho : outbound_frames env (config a) text = []).
  { unfold outbound_frames. now rewrite Hfail. }
  rewrite Ho. repeat split.
  - rewrite !filter_app, !filter_set_state_trace by reflexivity. reflexivity.
  - rewrite !filter_app, !filter_set_state_trace by reflexivity. reflexivity.
  - apply set_state_state.
  - intros Hs Hobs. rewrite !announced_app, !set_state_announced.
    rewrite set_state_state, set_state_observer, Hs, Hobs. reflexivity.
Qed.

(** X16: the transcript observer hears of every started turn.  On a turn
    with a non-empty utterance buffer a registered transcript observer is
    notified exactly once, with the transcript, whatever the collaborators
    do afterwards - also with the empty transcript of a failed
    recognition. *)
Theorem transcript_always_notified (a : VoiceAgent) :
  speech_buffer a <> [] ->
  on_transcript a = true ->
  filter is_transcript (trace (_process_speech env a)) =
  [TranscriptNotified (transcript_of env (concat (speech_buffer a)))].
Proof.
  intros Hne Hobs. rewrite (process_speech_run env a Hne). cbv zeta.
  assert (Hp : filter is_transcript (turn_prefix env a) =
               [TranscriptNotified (transcript_of env (concat (speech_buffer a)))]).
  { unfold turn_prefix. cbv zeta. rewrite Hobs.
    rewrite !filter_app, filter_set_state_trace by reflexivity.
    destruct (audio_float_of _); reflexivity. }
  destruct (str_is_empty _).
  - cbn [trace snd]. rewrite filter_app, Hp, filter_set_state_trace by reflexivity.
    reflexivity.
  - rewrite get_llm_response_run. cbv zeta.
    destruct (llm_create env _ _) as [[reply|]|]; cbn [result trace agent_after fst snd];
      try rewrite synthesize_and_send_run; cbn [trace snd];
      rewrite !filter_app, Hp, ?filter_set_state_trace, ?filter_outbound_frames
        by reflexivity;
      cbn [filter is_transcript app];
      try (destruct (on_response a)); reflexivity.
Qed.

End FailingTurns.



(** ** The pipeline theorems at work *)

(** X13 at work: the transcript is "hello", the reply "ok". *)
Lemma successful_turn_witness :
  let r := _process_speech (replying "ok") heard_agent in
  filter is_llm_call (trace r) =
    [LlmCall "gpt-4" (llm_request heard_agent "hello")] /\
  filter is_tts_call (trace r) = [TtsCall "alloy" "ok"] /\
  filter is_response (trace r) = [ResponseNotified "ok"] /\
  conversation_history (agent_after r) = [user_turn "hello"; assistant_turn (Some "ok"%string)] /\
  state (agent_after r) = CONNECTED /\
  (state heard_agent = CONNECTED -> on_state_change heard_agent = true ->
   announced (trace r) = [PROCESSING; SPEAKING; CONNECTED]).
Proof.
  apply (successful_turn (replying "ok") heard_agent "ok").
  - discriminate.
  - reflexivity.
  - reflexivity.
Defined.

(** X14 at work: the service answers "hello" without content. *)
Lemma reply_without_content_witness :
  let r := _process_speech llm_silent heard_agent in
  filter is_tts_call (trace r) = [] /\
  filter is_response (trace r) = [] /\
  filter is_audio_sent (trace r) = [] /\
  conversation_history (agent_after r) = [user_turn "hello"; assistant_turn None] /\
  state (agent_after r) = CONNECTED.
Proof.
  apply (reply_without_content llm_silent heard_agent).
  - discriminate.
  - reflexivity.
  - reflexivity.
Defined.

(** X15 at work: the synthesis of "ok" fails while the agent is
    Processing. *)
Lemma synthesis_failure_is_silent_witness :
  let a := with_state PROCESSING heard_agent in
  let r := _synthesize_and_send tts_failing "ok" a in
  filter is_audio_sent (trace r) = [] /\
  filter is_tts_call (trace r) = [TtsCall "alloy" "ok"] /\
  state (agent_after r) = CONNECTED /\
  (state a = PROCESSING -> on_state_change a = true ->
   announced (trace r) = [SPEAKING; CONNECTED]).
Proof.
  apply (synthesis_failure_is_silent tts_failing "ok" (with_state PROCESSING heard_agent)).
  reflexivity.
Defined.

(** X16 at work: a failed recognition is notified as the empty
    transcript. *)
Lemma transcript_always_notified_witness :
  filter is_transcript (trace (_process_speech stt_failing heard_agent)) =
  [TranscriptNotified EmptyString].
Proof.
  apply (transcript_always_notified stt_failing heard_agent).
  - discriminate.
  - reflexivity.
Defined.


(* ================================================================== *)
(** * Outbound audio: frames of 20 ms                                  *)
(* ================================================================== *)

Lemma chunks_nil (size : nat) : 0 < size -> chunks size [] = [].
Proof.
  intros H. unfold chunks. cbn [length Nat.add].
  replace ((size - 1) / size) with 0; [reflexivity|].
  symmetry. apply Nat.div_small. lia.
Qed.

Lemma chunk_count_step (len size : nat) :
  0 < size -> 0 < len ->
  (len + size - 1) / size = S ((len - size + size - 1) / size).
Proof.
  intros Hs Hl. destruct (Nat.le_gt_cases size len) as [H|H].
  - replace (len + size - 1) with ((len - size + size - 1) + 1 * size) by lia.
    rewrite Nat.div_add by lia. lia.
  - replace (len - size) with 0 by lia. cbn [Nat.add].
    rewrite (Nat.div_small (size - 1)) by lia.
    replace (len + size - 1) with ((len - 1) + 1 * size) by lia.
    rewrite Nat.div_add by lia. rewrite Nat.div_small by lia. reflexivity.
Qed.

Lemma chunks_cons (size : nat) (audio : list Z) :
  0 < size -> audio <> [] ->
  chunks size audio =
  (firstn size audio ++ repeat 0%Z (size - length (firstn size audio)))
    :: chunks size (skipn size audio).
Proof.
  intros Hs Hne. unfold chunks.
  assert (Hl : 0 < length audio) by (destruct audio; [contradiction | simpl; lia]).
  rewrite (chunk_count_step (length audio) size Hs Hl), length_skipn.
  cbn [seq map]. f_equal.
  rewrite <- seq_shift, map_map. apply map_ext. intros k.
  cbv zeta. replace (S k * size) with (k * size + size) by lia.
  now rewrite <- skipn_skipn.
Qed.

Lemma chunks_frame_length (size : nat) (audio : list Z) :
  Forall (fun c => length c = size) (chunks size audio).
Proof.
  unfold chunks. apply Forall_forall. intros c Hc.
  apply in_map_iff in Hc. destruct Hc as [k [<- _]]. cbv zeta.
  rewrite length_app, repeat_length, length_firstn. lia.
Qed.

(** X18: the outbound frames are a padded cut of the audio.  For a
    positive frame size, [chunks] cuts the audio into frames of exactly
    that size each; put end to end they are the audio followed by fewer
    than one frame of zeros, and nothing but those zeros is added. *)
Theorem chunks_are_padded_audio (size : nat) (audio : list Z) :
  0 < size ->
  Forall (fun c => length c = size) (chunks size audio) /\
  exists pad,
    pad < size /\
    concat (chunks size audio) = audio ++ repeat 0%Z pad /\
    length (chunks size audio) * size = length audio + pad.
Proof.
  intros Hs.
  assert (Hn : length audio <= length audio) by lia.
  revert Hn. generalize (length audio) at 2. intros n. revert audio.
  induction n as [|n IH]; intros audio Hn.
  - destruct audio; [|simpl in Hn; lia].
    rewrite chunks_nil by exact Hs. split; [constructor|].
    exists 0. split; [exact Hs | split; reflexivity].
  - destruct audio as [|x rest] eqn:Ea.
    { rewrite chunks_nil by exact Hs. split; [constructor|].
      exists 0. split; [exact Hs | split; reflexivity]. }
    rewrite <- Ea in *. assert (Hne : audio <> []) by (rewrite Ea; discriminate).
    assert (Hpos : 0 < length audio) by (rewrite Ea; simpl; lia).
    clear Ea x rest. rewrite (chunks_cons size audio Hs Hne).
    assert (Hlt : length (skipn size audio) <= n) by (rewrite length_skipn; lia).
    destruct (IH (skipn size audio) Hlt) as [Hall [pad [Hp [Hc Hl]]]].
    split.
    + constructor; [|exact Hall].
      rewrite length_app, repeat_length, length_firstn. lia.
    + destruct (Nat.le_gt_cases size (length audio)) as [Hfull|Hshort].
      * exists pad. split; [exact Hp|].
        replace (size - length (firstn size audio)) with 0
          by (rewrite length_firstn; lia).
        cbn [repeat concat length]. rewrite app_nil_r, Hc, app_assoc, firstn_skipn.
        split; [reflexivity|]. rewrite length_skipn in Hl. lia.
      * assert (Hskip : skipn size audio = []) by (apply skipn_all2; lia).
        rewrite Hskip, chunks_nil by exact Hs.
        rewrite firstn_all2 by lia.
        exists (size - length audio). cbn [concat length].
        rewrite app_nil_r. split; [lia | split; [reflexivity | lia]].
Qed.

(** A frame can be built on the track: the sample rate is a positive C
    [int] and the timestamp an [int64_t]. *)
Lemma frame_attributes_fit (t : AudioStreamTrack) :
  (0 < track_sample_rate t < 2 ^ 31)%Z ->
  (- 2 ^ 63 <= _timestamp t < 2 ^ 63)%Z ->
  fits_c_int (track_sample_rate t) = true /\
  fits_int64 (_timestamp t) = true /\
  (track_sample_rate t =? 0)%Z = false /\
  fits_c_int (Z.abs (track_sample_rate t)) = true.
Proof.
  intros Hr Ht. unfold fits_c_int, fits_int64.
  rewrite Z.abs_eq by lia.
  repeat split; try (apply andb_true_iff; split);
    first [apply Z.leb_le; lia | apply Z.ltb_lt; lia | apply Z.eqb_neq; lia].
Qed.

(** X19: the outbound track is a queue with a clock.  A track whose sample
    rate is a positive C [int] and whose frame size is positive, holding no
    empty chunk, answers each of [n] polls as long as its timestamps stay
    in the range of [int64_t]; the [i]-th answer is the [i]-th queued
    chunk, in the order sent, or a frame of silence once the queue is
    drained; its timestamp is the start timestamp plus [i] frame sizes,
    whatever the length of the chunk; and the queue is shortened by what
    was polled. *)
Theorem recv_many_schedule (n : nat) (t : AudioStreamTrack) :
  (0 < track_sample_rate t < 2 ^ 31)%Z ->
  (0 < _samples_per_frame t)%Z ->
  (- 2 ^ 63 <= _timestamp t)%Z ->
  (_timestamp t + Z.of_nat n * _samples_per_frame t <= 2 ^ 63)%Z ->
  Forall (fun chunk => chunk <> []) (_queue t) ->
  exists frames t',
    recv_many n t = Some (frames, t') /\
    map out_samples frames = map (fun i => nth i (_queue t) (silence t)) (seq 0 n) /\
    map out_pts frames =
      map (fun i => (_timestamp t + Z.of_nat i * _samples_per_frame t)%Z) (seq 0 n) /\
    _queue t' = skipn n (_queue t) /\
    _timestamp t' = (_timestamp t + Z.of_nat n * _samples_per_frame t)%Z.
Proof.
  revert t. induction n as [|n IH]; intros t Hrate Hspf Hlo Hhi Hq0.
  - exists [], t. repeat split. cbn [skipn Z.of_nat]. lia.
  - cbn [recv_many]. unfold recv.
    destruct (frame_attributes_fit t Hrate) as [F1 [F2 [F3 F4]]]; [lia|].
    rewrite F1, F2, F3, F4. cbn [negb].
    destruct (_queue t) as [|audio_data rest] eqn:Eq.
    + replace (_samples_per_frame t <? 0)%Z with false
        by (symmetry; apply Z.ltb_ge; lia).
      match goal with |- context [recv_many n ?x] => set (t1 := x) end.
      destruct (IH t1 Hrate Hspf) as [frames [t' [Hr [Hs [Hp [Hq Ht]]]]]];
        [cbn [t1 _timestamp]; lia | cbn [t1 _timestamp _samples_per_frame]; lia
        | constructor |].
      rewrite Hr. eexists; exists t'. split; [reflexivity|].
      cbn [map out_samples out_pts seq].
      rewrite <- seq_shift, map_map, Hs, Hp, map_map, Hq, Ht.
      cbn [_queue _timestamp _samples_per_frame t1].
      split; [|split; [|split]].
      * f_equal. apply map_ext. intros i. unfold silence.
        cbn [_samples_per_frame]. now destruct i.
      * f_equal; [lia|]. apply map_ext. intros i. lia.
      * now rewrite !skipn_nil.
      * lia.
    + match goal with |- context [recv_many n ?x] => set (t1 := x) end.
      destruct (IH t1 Hrate Hspf) as [frames [t' [Hr [Hs [Hp [Hq Ht]]]]]];
        [cbn [t1 _timestamp]; lia | cbn [t1 _timestamp _samples_per_frame]; lia
        | exact (Forall_inv_tail Hq0) |].
      rewrite Hr. eexists; exists t'. split; [reflexivity|].
      cbn [map out_samples out_pts seq].
      rewrite <- seq_shift, map_map, Hs, Hp, map_map, Hq, Ht.
      cbn [_queue _timestamp _samples_per_frame t1 skipn nth].
      split; [|split; [|split]].
      * reflexivity.
      * f_equal; [lia|]. apply map_ext. intros i. lia.
      * reflexivity.
      * lia.
Qed.

(** X20: the frames sent fit the track.  Every frame that
    [_synthesize_and_send] hands to the outbound track is non-empty and has
    exactly the number of samples by which the track that [connect] creates
    for the same configuration advances its timestamp, which is the size of
    the silence frames of that track. *)
Theorem outbound_frames_match_track
  (env : Collaborators) (cfg : AgentConfig) (text : string) :
  let t := new_track (sample_rate cfg) (channels cfg) in
  Forall (fun e => exists chunk,
                     e = AudioSent chunk /\
                     0 < length chunk /\
                     Z.of_nat (length chunk) = _samples_per_frame t /\
                     length chunk = length (silence t))
         (outbound_frames env cfg text).
Proof.
  cbv zeta. unfold outbound_frames, silence. cbn [new_track _samples_per_frame].
  destruct (tts_create env _ text) as [pcm|]; [|constructor]. cbv zeta.
  destruct (if negb _ then _ else _) as [resampled|]; [|constructor].
  destruct (Z.eqb_spec (py_int (inject_Z (sample_rate cfg) * (2 # 100))) 0);
    [constructor|].
  destruct (Z.ltb_spec (py_int (inject_Z (sample_rate cfg) * (2 # 100))) 0);
    [constructor|].
  set (size := py_int (inject_Z (sample_rate cfg) * (2 # 100))) in *.
  pose proof (chunks_frame_length (Z.to_nat size) (map py_int resampled)) as Hall.
  apply Forall_forall. intros e He. apply in_map_iff in He.
  destruct He as [chunk [<- Hc]]. exists chunk.
  rewrite Forall_forall in Hall. rewrite (Hall chunk Hc), repeat_length.
  split; [reflexivity|]. split; [lia|]. split; [lia | reflexivity].
Qed.

(** ** The track theorems at work *)

(** X18 at work: six samples in frames of four. *)
Lemma chunks_are_padded_audio_witness :
  Forall (fun c => length c = 4) (chunks 4 [1; 2; 3; 4; 5; 6]%Z) /\
  exists pad,
    pad < 4 /\
    concat (chunks 4 [1; 2; 3; 4; 5; 6]%Z) = [1; 2; 3; 4; 5; 6]%Z ++ repeat 0%Z pad /\
    length (chunks 4 [1; 2; 3; 4; 5; 6]%Z) * 4 = length [1; 2; 3; 4; 5; 6]%Z + pad.
Proof.
  apply (chunks_are_padded_audio 4 [1; 2; 3; 4; 5; 6]%Z). lia.
Defined.

(** X19 at work: a track of 100 Hz, so of two samples a frame, holding one
    chunk, polled three times. *)
Lemma recv_many_schedule_witness :
  let t := send_audio [7; 8]%Z (new_track 100 1) in
  exists frames t',
    recv_many 3 t = Some (frames, t') /\
    map out_samples frames = map (fun i => nth i (_queue t) (silence t)) (seq 0 3) /\
    map out_pts frames =
      map (fun i => (_timestamp t + Z.of_nat i * _samples_per_frame t)%Z) (seq 0 3) /\
    _queue t' = skipn 3 (_queue t) /\
    _timestamp t' = (_timestamp t + Z.of_nat 3 * _samples_per_frame t)%Z.
Proof.
  apply (recv_many_schedule 3 (send_audio [7; 8]%Z (new_track 100 1))).
  - cbn. lia.
  - reflexivity.
  - cbn. lia.
  - cbn. lia.
  - repeat constructor. discriminate.
Defined.

(* ================================================================== *)
(** * Connection and signalling                                        *)
(* ================================================================== *)

Lemma lift_run {A} (m : M A) (s : Session) :
  Net.lift m s =
  (Some (result (m (agent s))),
   with_agent (agent_after (m (agent s))) s,
   map AgentEvent (trace (m (agent s)))).
Proof.
  unfold Net.lift, result, agent_after, trace.
  destruct (m (agent s)) as [[x a] es]. reflexivity.
Qed.

Ltac net_steps :=
  unfold Net.call, Net.bind, Net.ret, Net.raise, Net.get, Net.modify, Net.emit,
         Net.of_option, Net.try_except, outcome, session_after, calls;
  repeat first
    [ rewrite lift_run
    | progress cbn [fst snd agent pc ws audio_track
                    with_agent with_pc with_ws with_audio_track app] ].

Lemma no_close_in_agent_events (es : list Event) :
  filter is_close (map AgentEvent es) = [].
Proof. induction es as [|e es IH]; [reflexivity | exact IH]. Qed.

(** X21: what [connect] leaves behind.  A peer connection and a fresh
    outbound track of the configured rate exist afterwards either way.  If
    the socket opens, [connect] returns with the session Connected, the
    socket set and the receive loop started.  If it does not, [connect]
    raises with the session left in Connecting, the socket attribute
    untouched, no receive loop, and the peer connection not closed. *)
Theorem connect_outcome (net : Network) (s : Session) :
  let r := connect net s in
  let cfg := config (agent s) in
  pc (session_after r) = true /\
  audio_track (session_after r) = Some (new_track (sample_rate cfg) (channels cfg)) /\
  if ws_connect net (ws_url cfg)
  then outcome r = Some tt /\
       state (agent (session_after r)) = CONNECTED /\
       ws (session_after r) = true /\
       filter is_close (calls r) = [] /\
       In ReceiveLoopSpawned (calls r)
  else outcome r = None /\
       state (agent (session_after r)) = CONNECTING /\
       ws (session_after r) = ws s /\
       filter is_close (calls r) = [] /\
       (In ReceiveLoopSpawned (calls r) -> False).
Proof.
  cbv zeta. unfold connect, _connect_websocket. net_steps.
  rewrite (set_state_config CONNECTING (agent s)).
  destruct (ws_connect net (ws_url (config (agent s)))); net_steps;
    rewrite set_state_state, !filter_app, !no_close_in_agent_events;
    cbn [filter is_close app]; rewrite ?no_close_in_agent_events.
  - destruct (result _). repeat split. apply in_or_app. right. cbn. tauto.
  - repeat split. intros H. apply in_app_or in H. destruct H as [H|H].
    + apply in_map_iff in H. destruct H as [e [H _]]. discriminate.
    + cbn in H. intuition discriminate.
Qed.

(** X22: what [disconnect] does.  It closes the peer connection first and
    the socket second, each only if it exists, and leaves both attributes
    set.  If every close it makes succeeds it returns with the session
    Disconnected.  If one raises, [disconnect] raises: after a failing
    peer-connection close the socket is not closed, and in both cases the
    agent is left as it was, with no observer called. *)
Theorem disconnect_outcome (net : Network) (s : Session) :
  let r := disconnect net s in
  pc (session_after r) = pc s /\
  ws (session_after r) = ws s /\
  audio_track (session_after r) = audio_track s /\
  filter is_close (calls r) =
    (if pc s then [PcClose] else [])
    ++ (if pc s && negb (pc_close net) then []
        else if ws s then [WsClose] else []) /\
  if implb (pc s) (pc_close net) && implb (ws s) (ws_close net)
  then outcome r = Some tt /\
       state (agent (session_after r)) = DISCONNECTED
  else outcome r = None /\
       agent (session_after r) = agent s /\
       announced_net (calls r) = [].
Proof.
  cbv zeta. unfold disconnect.
  destruct (pc s) eqn:Ep; destruct (ws s) eqn:Ew;
    destruct (pc_close net); destruct (ws_close net);
    net_steps; rewrite ?Ep, ?Ew; net_steps; cbn [implb andb negb filter is_close app];
    rewrite ?filter_app, ?no_close_in_agent_events, ?set_state_state;
    repeat match goal with |- context [result ?x] => destruct (result x) end;
    repeat split; assumption.
Qed.

Ltac net_cases :=
  repeat (net_steps;
          match goal with
          | |- context [match ?x with _ => _ end] => destruct x eqn:?
          end).

Lemma send_message_run (net : Network) (msg : Json) (s : Session) :
  _send_message net msg s =
  (Some tt, s, if ws s then [WsSend msg (ws_send net msg)] else []).
Proof. unfold _send_message. net_steps. now destruct (ws s). Qed.

Lemma negotiates_bind {A B} (m : N A) (k : A -> N B) :
  negotiates m -> (forall x, negotiates (k x)) -> negotiates (Net.bind m k).
Proof.
  intros Hm Hk s. destruct (Hm s) as [H1 H2]. unfold Net.bind.
  unfold session_after, calls in *.
  destruct (m s) as [[[x|] s1] e1]; cbn [fst snd] in *; subst s1.
  - destruct (Hk x s) as [H3 H4]. unfold session_after, calls in *.
    destruct (k x s) as [[y s2] e2]. cbn [fst snd] in *.
    split; [exact H3 | now apply Forall_app].
  - now split.
Qed.

Lemma negotiates_of_option {A} (o : option A) : negotiates (Net.of_option o).
Proof. intros s. destruct o; now split. Qed.

Lemma negotiates_ret {A} (x : A) : negotiates (Net.ret x).
Proof. intros s. now split. Qed.

Lemma negotiates_raise {A} : negotiates (@Net.raise A).
Proof. intros s. now split. Qed.

Lemma negotiates_call (e : NetEvent) (ok : bool) :
  is_negotiation e = true -> negotiates (Net.call e ok).
Proof.
  intros He s. unfold Net.call. net_steps.
  destruct ok; cbn; split; auto.
Qed.

Lemma negotiates_emit (e : NetEvent) :
  is_negotiation e = true -> negotiates (Net.emit e).
Proof. intros He s. cbn. split; auto. Qed.

Lemma negotiates_the_pc : negotiates the_pc.
Proof. intros s. unfold the_pc. net_steps. destruct (pc s); now split. Qed.

Lemma negotiates_send_message (net : Network) (msg : Json) :
  negotiates (_send_message net msg).
Proof.
  intros s. rewrite send_message_run. cbn. split; [reflexivity|].
  destruct (ws s); auto.
Qed.

Lemma negotiates_try_except {A} (body handler : N A) :
  negotiates body -> negotiates handler -> negotiates (Net.try_except body handler).
Proof.
  intros Hb Hh s. destruct (Hb s) as [H1 H2]. unfold Net.try_except.
  unfold session_after, calls in *.
  destruct (body s) as [[[x|] s1] e1]; cbn [fst snd] in *; subst s1.
  - now split.
  - destruct (Hh s) as [H3 H4]. unfold session_after, calls in *.
    destruct (handler s) as [[y s2] e2]. cbn [fst snd] in *.
    split; [exact H3 | now apply Forall_app].
Qed.

Create HintDb negotiation.
#[local] Hint Resolve negotiates_of_option negotiates_ret negotiates_raise
  negotiates_the_pc negotiates_send_message : negotiation.

Ltac solve_negotiates :=
  repeat first
    [ solve [auto with negotiation]
    | apply negotiates_call; reflexivity
    | apply negotiates_emit; reflexivity
    | apply negotiates_try_except
    | apply negotiates_bind; [|intros ?]
    | match goal with
      | |- negotiates (if ?b then _ else _) => destruct b
      end ].

Lemma negotiates_handle_offer (net : Network) (offer_data : Json) :
  negotiates (_handle_offer net offer_data).
Proof. unfold _handle_offer. solve_negotiates. Qed.

Lemma negotiates_handle_answer (net : Network) (answer_data : Json) :
  negotiates (_handle_answer net answer_data).
Proof. unfold _handle_answer. solve_negotiates. Qed.

Lemma negotiates_handle_ice_candidate (net : Network) (candidate_data : Json) :
  negotiates (_handle_ice_candidate net candidate_data).
Proof. unfold _handle_ice_candidate. solve_negotiates. Qed.

#[local] Hint Resolve negotiates_handle_offer negotiates_handle_answer
  negotiates_handle_ice_candidate : negotiation.

Lemma negotiates_handle_signaling_message (net : Network) (msg : Json) :
  negotiates (_handle_signaling_message net msg).
Proof. unfold _handle_signaling_message. solve_negotiates. Qed.

#[local] Hint Resolve negotiates_handle_signaling_message : negotiation.

Lemma negotiates_handle_stream (net : Network) (messages : list (option Json))
  (closure : StreamEnd) :
  negotiates (handle_stream net messages closure).
Proof.
  induction messages as [|message rest IH]; cbn [handle_stream].
  - destruct closure; auto with negotiation.
  - solve_negotiates.
Qed.

(** X23: signalling only negotiates.  Whatever the server sends, handling
    the message leaves the session as it was - state, buffers, history,
    connection attributes, outbound track - and calls nothing but the
    negotiation: no observer, no connect, no close. *)
Theorem signalling_keeps_session (net : Network) (msg : Json) (s : Session) :
  let r := _handle_signaling_message net msg s in
  session_after r = s /\
  Forall (fun e => is_negotiation e = true) (calls r).
Proof. exact (negotiates_handle_signaling_message net msg s). Qed.

Lemma handle_ice_candidate_returns (net : Network) (candidate_data : Json) (s : Session) :
  outcome (_handle_ice_candidate net candidate_data s) = Some tt /\
  (calls (_handle_ice_candidate net candidate_data s) = [] \/
   exists sdpMid sdpMLineIndex candidate,
     calls (_handle_ice_candidate net candidate_data s)
     = [AddIceCandidate sdpMid sdpMLineIndex candidate]).
Proof.
  unfold _handle_ice_candidate, the_pc. net_steps.
  destruct (py_get candidate_data "sdpMid") as [sdpMid|]; net_steps; [|split; auto].
  destruct (py_get candidate_data "sdpMLineIndex") as [sdpMLineIndex|];
    net_steps; [|split; auto].
  destruct (py_get candidate_data "candidate") as [candidate|];
    net_steps; [|split; auto].
  destruct (RTCIceCandidate net sdpMid sdpMLineIndex candidate);
    net_steps; [|split; auto].
  destruct (pc s); net_steps; [|split; auto].
  destruct (addIceCandidate net sdpMid sdpMLineIndex candidate);
    net_steps; (split; [reflexivity|]); right;
    now exists sdpMid, sdpMLineIndex, candidate.
Qed.

(** X24: a candidate is never fatal.  A [candidate] message that has a
    [data] entry - of any shape, a dict or not, whether or not the
    candidate can be built or added, with or without a peer connection -
    is handled without an exception, with no call at all or with the one
    call that adds the candidate. *)
Theorem candidate_message_never_raises
  (net : Network) (fields : list (string * Json)) (data : Json) (s : Session) :
  dict_item "type" fields = Some (JString "candidate") ->
  dict_item "data" fields = Some data ->
  let r := _handle_signaling_message net (JObject fields) s in
  outcome r = Some tt /\
  (calls r = [] \/
   exists sdpMid sdpMLineIndex candidate,
     calls r = [AddIceCandidate sdpMid sdpMLineIndex candidate]).
Proof.
  intros Ht Hd. cbv zeta.
  pose proof (handle_ice_candidate_returns net data s) as H.
  unfold _handle_signaling_message. net_steps.
  cbn [py_get py_getitem]. rewrite Ht, Hd. net_steps.
  change (json_is (JString "candidate") "offer") with false.
  change (json_is (JString "candidate") "answer") with false.
  change (json_is (JString "candidate") "candidate") with true.
  cbv iota. net_steps. unfold outcome, calls in H.
  destruct (_handle_ice_candidate net data s) as [[o s1] es].
  cbn [fst snd app] in *. exact H.
Qed.

(** X25: what is not understood is ignored.  A message that is a dict whose
    [type] is none of offer, answer, candidate and client-left - missing,
    not a string, or another string - is handled without an exception,
    a call or a change, whatever else it holds. *)
Theorem unknown_message_ignored
  (net : Network) (fields : list (string * Json)) (s : Session) :
  (forall kind, dict_item "type" fields = Some (JString kind) ->
                In kind ["offer"; "answer"; "candidate"; "client-left"]%string ->
                False) ->
  _handle_signaling_message net (JObject fields) s = (Some tt, s, []).
Proof.
  intros H. unfold _handle_signaling_message. net_steps. cbn [py_get].
  assert (Hk : forall kind,
             In kind ["offer"; "answer"; "candidate"; "client-left"]%string ->
             json_is match dict_item "type" fields with
                     | Some v => v
                     | None => JNull
                     end kind = false).
  { intros kind Hin. destruct (dict_item "type" fields) as [[| | |t| |]|] eqn:E;
      try reflexivity.
    cbn [json_is]. destruct (String.eqb_spec t kind) as [->|]; [|reflexivity].
    destruct (H kind eq_refl Hin). }
  net_steps.
  rewrite !Hk by (cbn; tauto). reflexivity.
Qed.

(** X26: the answer follows the offer.  In any run of [_handle_offer], a
    message goes out only as the last of four calls - remote description
    from the offer, answer created, local description set, message sent -
    and it carries the local description that the peer connection reports,
    not the answer as created; a handler that raises has sent nothing; one
    that returns on a session with a socket has sent the answer. *)
Theorem answer_follows_offer (net : Network) (offer_data : Json) (s : Session) :
  let r := _handle_offer net offer_data s in
  (forall msg delivered,
     In (WsSend msg delivered) (calls r) ->
     exists sdp type answer local,
       py_getitem offer_data "sdp" = Some sdp /\
       py_getitem offer_data "type" = Some type /\
       createAnswer net = Some answer /\
       setLocalDescription net answer = Some local /\
       msg = answer_message local /\
       calls r = [SetRemoteDescription sdp type; CreateAnswer;
                  SetLocalDescription answer; WsSend msg (ws_send net msg)]) /\
  (outcome r = None -> filter is_send (calls r) = []) /\
  (outcome r = Some tt -> ws s = true -> length (filter is_send (calls r)) = 1).
Proof.
  cbv zeta. unfold _handle_offer, the_pc. net_steps.
  destruct (pc s); net_steps; [|repeat split; [intros ? ? [] | discriminate]].
  destruct (py_getitem offer_data "sdp") as [sdp|]; net_steps;
    [|repeat split; [intros ? ? [] | discriminate]].
  destruct (py_getitem offer_data "type") as [type|]; net_steps;
    [|repeat split; [intros ? ? [] | discriminate]].
  destruct (setRemoteDescription net sdp type); net_steps;
    [|repeat split; [intros ? ? [H|[]]; discriminate | discriminate]].
  destruct (createAnswer net) as [answer|]; net_steps;
    [|repeat split; [intros ? ? [H|[H|[]]]; discriminate | discriminate]].
  destruct (setLocalDescription net answer) as [local|] eqn:El; net_steps;
    [|repeat split; [intros ? ? [H|[H|[H|[]]]]; discriminate | discriminate]].
  rewrite send_message_run. cbn [fst snd app].
  destruct (ws s); cbn [app]; repeat split; try discriminate.
  - intros msg delivered [H|[H|[H|[H|[]]]]]; try discriminate.
    injection H as <- <-. exists sdp, type, answer, local. repeat split. exact El.
  - intros msg delivered [H|[H|[H|[]]]]; discriminate.
Qed.

Lemma handle_stream_stops (net : Network) (before after : list (option Json))
  (closure closure' : StreamEnd) (s : Session) :
  handle_stream net (before ++ None :: after) closure s =
  handle_stream net (before ++ [None]) closure' s.
Proof.
  revert s. induction before as [|message rest IH]; intros s.
  - reflexivity.
  - cbn [app handle_stream]. unfold Net.bind.
    destruct (Net.of_option message s) as [[[data|] s1] e1]; [|reflexivity].
    destruct (_handle_signaling_message net data s1) as [[[[]|] s2] e2];
      [|reflexivity].
    now rewrite IH.
Qed.

(** X27: the receive loop ends at the first text that is not JSON.  What
    the server sends after it, and how the connection is closed, changes
    nothing in what the loop does. *)
Theorem receive_loop_stops_at_bad_text
  (net : Network) (before after : list (option Json))
  (closure closure' : StreamEnd) (s : Session) :
  _handle_websocket_messages net (before ++ None :: after) closure s =
  _handle_websocket_messages net (before ++ [None]) closure' s.
Proof.
  unfold _handle_websocket_messages, Net.try_except.
  now rewrite (handle_stream_stops net before after closure closure').
Qed.

(** X28: a loop that fails disconnects.  If the body of the receive loop
    raises - a text that is not JSON, a handler that raises, a connection
    lost - and the closes succeed, the loop itself returns, with the
    session Disconnected and the peer connection and the socket closed once
    each, peer connection first, after every call of the negotiation. *)
Theorem receive_loop_failure_disconnects
  (net : Network) (messages : list (option Json)) (closure : StreamEnd)
  (s : Session) :
  outcome (handle_stream net messages closure s) = None ->
  pc_close net = true ->
  ws_close net = true ->
  let r := _handle_websocket_messages net messages closure s in
  outcome r = Some tt /\
  state (agent (session_after r)) = DISCONNECTED /\
  exists negotiation,
    Forall (fun e => is_negotiation e = true) negotiation /\
    filter is_close negotiation = [] /\
    calls r = negotiation
              ++ (if pc s then [PcClose] else [])
              ++ (if ws s then [WsClose] else [])
              ++ map AgentEvent (trace (_set_state DISCONNECTED (agent s))).
Proof.
  intros Hfail Hpc Hws. cbv zeta.
  destruct (negotiates_handle_stream net messages closure s) as [Hs Hn].
  unfold _handle_websocket_messages, Net.try_except.
  unfold outcome, session_after, calls in *.
  destruct (handle_stream net messages closure s) as [[o s1] e1].
  cbn [fst snd] in *. subst o s1.
  unfold disconnect. rewrite Hpc, Hws.
  assert (Hc : filter is_close e1 = []).
  { clear -Hn. induction Hn as [|e es He _ IH]; [reflexivity|].
    cbn [filter]. destruct e; try discriminate; exact IH. }
  destruct (pc s) eqn:Ep; destruct (ws s) eqn:Ew; net_steps;
    rewrite ?Ep, ?Ew; net_steps; rewrite set_state_state;
    destruct (result _); (split; [reflexivity|]); (split; [reflexivity|]);
    exists e1; repeat split; assumption.
Qed.

(** ** The signalling theorems at work *)

(** X24 at work: a candidate message on a connected session. *)
Lemma candidate_message_never_raises_witness :
  let r := _handle_signaling_message reliable (JObject candidate_fields)
             connected_session in
  outcome r = Some tt /\
  (calls r = [] \/
   exists sdpMid sdpMLineIndex candidate,
     calls r = [AddIceCandidate sdpMid sdpMLineIndex candidate]).
Proof.
  apply (candidate_message_never_raises reliable candidate_fields
           (JObject [("candidate"%string, JString "candidate:1")])
           connected_session); reflexivity.
Defined.

(** X25 at work: a ping. *)
Lemma unknown_message_ignored_witness :
  _handle_signaling_message reliable (JObject ping_fields) connected_session =
  (Some tt, connected_session, []).
Proof.
  apply (unknown_message_ignored reliable ping_fields connected_session).
  intros kind H Hin. injection H as <-. cbn in Hin.
  repeat (destruct Hin as [Hin|Hin]; [discriminate|]). exact Hin.
Defined.

(** X28 at work: the first text is not JSON. *)
Lemma receive_loop_failure_disconnects_witness :
  let r := _handle_websocket_messages reliable [None] ClosedOk connected_session in
  outcome r = Some tt /\
  state (agent (session_after r)) = DISCONNECTED /\
  exists negotiation,
    Forall (fun e => is_negotiation e = true) negotiation /\
    filter is_close negotiation = [] /\
    calls r = negotiation
              ++ (if pc connected_session then [PcClose] else [])
              ++ (if ws connected_session then [WsClose] else [])
              ++ map AgentEvent
                   (trace (_set_state DISCONNECTED (agent connected_session))).
Proof.
  apply (receive_loop_failure_disconnects reliable [None] ClosedOk connected_session);
    reflexivity.
Defined.
